(** * Site selector and media helpers: a shallow embedding

    The development follows the JavaScript sources
    - [src/state/sites/selectors.js]: [getSite] and [getSite.clearCache],
    - the media utilities: [url], [getFileExtension], [getMimeType].

    JavaScript values are embedded as a small inductive type, objects live in
    a store indexed by locations (so that object identity, on which the
    [WeakMap] cache of [getSite] depends, is explicit), and a function that can
    throw returns a [result].

    Conventions of the embedding:
    - numbers are integers (site IDs, pixel widths) of the range JavaScript
      prints in plain decimal; [NaN] and fractions are not represented;
    - strings are Rocq strings, [toLowerCase] acts on the letters A-Z;
    - an object is the finite map of its own enumerable properties; the
      properties every object inherits are the section variable
      [ObjectPrototype];
    - functions imported from modules that are not part of these sources
      ([getRawSite], [resize], [path.extname], ...) are section variables. *)

From stdpp Require Import gmap strings.
From Stdlib Require Import ZArith DecimalString Ascii String.

Local Open Scope Z_scope.

(** ** Values *)

Definition loc := positive.
Bind Scope positive_scope with loc.

Inductive value :=
  | VUndefined
  | VNull
  | VBool (b : bool)
  | VNum (n : Z)
  | VStr (s : string)
  | VObj (l : loc).

#[global] Instance value_eq_dec : EqDecision value.
Proof. solve_decision. Defined.

#[global] Instance value_inhabited : Inhabited value := populate VUndefined.

(** The own enumerable properties of an object, and the store of objects. *)
Abbreviation obj := (gmap string value).
Abbreviation heap := (gmap loc obj).

(** What a call produces: a value, or a thrown [TypeError]. *)
Inductive result :=
  | Returned (v : value)
  | Thrown.

#[global] Instance result_eq_dec : EqDecision result.
Proof. solve_decision. Defined.

(** [ToBoolean]: the falsy values are [undefined], [null], [false], [0]
    and the empty string. *)
Definition truthy (v : value) : bool :=
  match v with
  | VUndefined | VNull => false
  | VBool b => b
  | VNum n => negb (n =? 0)
  | VStr s => negb (String.eqb s "")
  | VObj _ => true
  end.

(** [a || b] on values. *)
Definition or_else (a b : value) : value := if truthy a then a else b.

(** [ToPropertyKey]: the string under which a value is used as a key. An
    object is taken to have the default [toString]. *)
Definition to_property_key (v : value) : string :=
  match v with
  | VUndefined => "undefined"
  | VNull => "null"
  | VBool true => "true"
  | VBool false => "false"
  | VNum n => NilEmpty.string_of_int (Z.to_int n)
  | VStr s => s
  | VObj _ => "[object Object]"
  end.

(** The own properties of a value: those of the stored object for a
    reference, none otherwise. *)
Definition own_props (h : heap) (v : value) : obj :=
  match v with
  | VObj l => default ∅ (h !! l)
  | _ => ∅
  end.

(** [{ ...target, ...source }]: the properties of [source] win. *)
Definition assign (target source : obj) : obj := source ∪ target.

(** Allocation of a new object at a location the store does not use. *)
Definition alloc (h : heap) (o : obj) : heap * value :=
  let l := fresh (dom h) in (<[l := o]> h, VObj l).

(** [String.prototype.slice(1)] and [String.prototype.toLowerCase()]. *)
Definition slice1 (s : string) : string :=
  match s with
  | EmptyString => EmptyString
  | String _ t => t
  end.

Definition lower_ascii (c : ascii) : ascii :=
  let n := nat_of_ascii c in
  if ((65 <=? n) && (n <=? 90))%nat then ascii_of_nat (n + 32) else c.

Fixpoint toLowerCase (s : string) : string :=
  match s with
  | EmptyString => EmptyString
  | String c t => String (lower_ascii c) (toLowerCase t)
  end.

(** A method call [x.slice(1)] / [x.toLowerCase()] on the outcome of an
    expression: only strings have the method. *)
Definition call_string_method (f : string -> string) (r : result) : result :=
  match r with
  | Returned (VStr s) => Returned (VStr (f s))
  | _ => Thrown
  end.

(** ** The store shared by the selectors *)

(** The objects of the program and the module-level [getSiteCache], a
    [WeakMap] from raw site objects to computed site objects. Entries whose
    key became unreachable cannot be observed, so collection is not
    modelled. *)
Record world := World {
  objects : heap;
  getSiteCache : gmap loc value
}.

(** [WeakMap.prototype.get]: [undefined] for a key that is not an object or
    has no entry. *)
Definition weakmap_get (m : gmap loc value) (key : value) : value :=
  match key with
  | VObj l => default VUndefined (m !! l)
  | _ => VUndefined
  end.

(** [WeakMap.prototype.set]: a key that is not an object is a [TypeError]. *)
Definition weakmap_set (m : gmap loc value) (key v : value)
  : option (gmap loc value) :=
  match key with
  | VObj l => Some (<[l := v]> m)
  | _ => None
  end.

(** Every cached value is an object of the store. *)
Definition wf_world (w : world) : Prop :=
  ∀ r v, getSiteCache w !! r = Some v →
         ∃ l, v = VObj l ∧ l ∈ dom (objects w).

Section Program.

(** The properties every object inherits ([Object.prototype]). *)
Variable ObjectPrototype : obj.

(** [v[k]]: an own property, else an inherited one, else [undefined]. The
    sources read properties only of values already tested truthy. *)
Definition get (h : heap) (v : value) (k : string) : value :=
  match own_props h v !! k with
  | Some x => x
  | None => default VUndefined (ObjectPrototype !! k)
  end.

(** [k in v]: own or inherited property; a [TypeError] ([None]) when [v] is
    not an object. *)
Definition has_property (h : heap) (k : string) (v : value) : option bool :=
  match v with
  | VObj _ =>
      Some (bool_decide (k ∈ dom (own_props h v) ∨ k ∈ dom ObjectPrototype))
  | _ => None
  end.

(** ** [src/state/sites/selectors.js] *)

Variable State : Type.

(** The selectors [getSite] calls; their definitions are not part of the
    sources. The two attribute selectors are given by the own properties of
    the object they return, which is all the spread reads. *)
Variable getRawSite : State → value → value.
Variable getSiteBySlug : State → value → value.
Variable getSiteComputedAttributes : State → value → obj.
Variable getJetpackComputedAttributes : State → value → obj.

(** A raw site that is truthy but not an object cannot be a key of the
    [WeakMap]: [get] finds nothing and [set] throws, after which the object
    just built is unreachable and the store is as before. *)
Definition getSite (state : State) (siteIdOrSlug : value) (w : world)
  : result * world :=
  let rawSite :=
    or_else (getRawSite state siteIdOrSlug) (getSiteBySlug state siteIdOrSlug) in
  if negb (truthy rawSite) then (Returned VNull, w)
  else
    let cachedSite := weakmap_get (getSiteCache w) rawSite in
    if truthy cachedSite then (Returned cachedSite, w)
    else
      let id := get (objects w) rawSite "ID" in
      let fields :=
        assign (assign (own_props (objects w) rawSite)
                       (getSiteComputedAttributes state id))
               (getJetpackComputedAttributes state id) in
      let '(h, site) := alloc (objects w) fields in
      match weakmap_set (getSiteCache w) rawSite site with
      | Some cache => (Returned site, World h cache)
      | None => (Thrown, w)
      end.

(** [getSite.clearCache]: an arrow function with no [return]. *)
Definition clearCache (w : world) : result * world :=
  (Returned VUndefined, World (objects w) ∅).

(** The worlds the selectors reach from an empty cache. *)
Inductive reachable : world → Prop :=
  | reachable_start (h : heap) : reachable (World h ∅)
  | reachable_getSite (state : State) (k : value) (w : world) :
      reachable w → reachable (getSite state k w).2
  | reachable_clearCache (w : world) :
      reachable w → reachable (clearCache w).2.

(** The raw site a key resolves to: the site found by ID, else by slug. *)
Definition resolves_to (state : State) (siteIdOrSlug : value) (r : loc) : Prop :=
  or_else (getRawSite state siteIdOrSlug) (getSiteBySlug state siteIdOrSlug)
  = VObj r.

(** The properties of the computed site of a raw site [rawSite]. *)
Definition computed_fields (state : State) (h : heap) (rawSite : value) : obj :=
  let id := get h rawSite "ID" in
  assign (assign (own_props h rawSite) (getSiteComputedAttributes state id))
         (getJetpackComputedAttributes state id).

(** What a call does when it serves the raw site [r]: it returns the truthy
    value the cache holds for [r] and changes nothing; or, the cache holding
    none, it stores a new object with the computed properties of [r], records
    it under [r] and returns it. *)
Definition serves_raw_site (state : State) (r : loc) (w : world)
    (out : result * world) : Prop :=
  (∃ v, getSiteCache w !! r = Some v ∧ truthy v = true ∧
        out = (Returned v, w)) ∨
  (truthy (weakmap_get (getSiteCache w) (VObj r)) = false ∧
   ∃ l, (l ∉ dom (objects w)) ∧
        out =
        (Returned (VObj l),
         World (<[l := computed_fields state (objects w) (VObj r)]> (objects w))
               (<[r := VObj l]> (getSiteCache w)))).

(** ** The media utilities *)

(** What the media utilities import: [resize] (resize-image-url), the table
    [MimeTypes] (./constants), [isUri] (valid-url), [urlLib.parse(_).pathname]
    (url) and [path.extname] (path); [photon] is called by the older copy of
    [url] only. [fileInWindow] is ["File" in window] and [instanceofFile] is
    [_ instanceof window.File]. An object literal passed as an argument is
    given by its properties. *)
Variable resize : value → obj → result.
Variable photon : value → option obj → result.
Variable MimeTypes : obj.
Variable isUri : value → value.
Variable urlParsePathname : value → result.
Variable extname : value → result.
Variable fileInWindow : bool.
Variable instanceofFile : value → bool.

(** [options || {}]: the empty literal is a new object. *)
Definition options_or_empty (h : heap) (options : value) : heap * value :=
  if truthy options then (h, options) else alloc h ∅.

(** [media.thumbnails && options.size in media.thumbnails]; [None] is the
    [TypeError] of [in] on a value that is not an object. *)
Definition thumbnail_in (h : heap) (thumbnails : value) (size : string)
  : option bool :=
  if truthy thumbnails then has_property h size thumbnails else Some false.

(** [url], with the photon block commented out. *)
Definition url (h : heap) (media options : value) : result :=
  if negb (truthy media) then Returned VUndefined
  else if truthy (get h media "transient") then Returned (get h media "URL")
  else if negb (truthy (get h media "URL")) then Returned VUndefined
  else
    let '(h, options) := options_or_empty h options in
    let size := to_property_key (get h options "size") in
    match thumbnail_in h (get h media "thumbnails") size with
    | None => Thrown
    | Some true => Returned (get h (get h media "thumbnails") size)
    | Some false =>
        if truthy (get h options "maxWidth") then
          resize (get h media "URL") {[ "w" := get h options "maxWidth" ]}
        else if truthy (get h options "resize") then
          resize (get h media "URL") {[ "resize" := get h options "resize" ]}
        else Returned (get h media "URL")
    end.

(** The older copy of [url], where [options.photon] is still honoured. *)
Definition url_photon (h : heap) (media options : value) : result :=
  if negb (truthy media) then Returned VUndefined
  else if truthy (get h media "transient") then Returned (get h media "URL")
  else if negb (truthy (get h media "URL")) then Returned VUndefined
  else
    let '(h, options) := options_or_empty h options in
    if truthy (get h options "photon") then
      if truthy (get h options "maxWidth") then
        photon (get h media "URL")
               (Some {[ "width" := get h options "maxWidth" ]})
      else if truthy (get h options "resize") then
        photon (get h media "URL")
               (Some {[ "resize" := get h options "resize" ]})
      else photon (get h media "URL") None
    else
      let size := to_property_key (get h options "size") in
      match thumbnail_in h (get h media "thumbnails") size with
      | None => Thrown
      | Some true => Returned (get h (get h media "thumbnails") size)
      | Some false =>
          if truthy (get h options "maxWidth") then
            resize (get h media "URL") {[ "w" := get h options "maxWidth" ]}
          else if truthy (get h options "resize") then
            resize (get h media "URL") {[ "resize" := get h options "resize" ]}
          else Returned (get h media "URL")
      end.

(** ["string" === typeof v]. *)
Definition is_string (v : value) : bool :=
  match v with
  | VStr _ => true
  | _ => false
  end.

Definition getFileExtension (h : heap) (media : value) : result :=
  if negb (truthy media) then Returned VUndefined
  else
    let isString := is_string media in
    let isFileObject := fileInWindow && instanceofFile media in
    if isString then
      let filePath :=
        if truthy (isUri media) then urlParsePathname media
        else Returned media in
      match filePath with
      | Returned filePath => call_string_method slice1 (extname filePath)
      | Thrown => Thrown
      end
    else if isFileObject then
      call_string_method slice1 (extname (get h media "name"))
    else if truthy (get h media "extension") then
      Returned (get h media "extension")
    else
      match
        urlParsePathname
          (or_else (or_else (or_else (get h media "URL") (get h media "file"))
                            (get h media "guid"))
                   (VStr ""))
      with
      | Returned pathname =>
          call_string_method slice1 (extname (or_else pathname (VStr "")))
      | Thrown => Thrown
      end.

Definition getMimeType (h : heap) (media : value) : result :=
  if negb (truthy media) then Returned VUndefined
  else if truthy (get h media "mime_type") then
    Returned (get h media "mime_type")
  else if fileInWindow && instanceofFile media then
    Returned (get h media "type")
  else
    match getFileExtension h media with
    | Thrown => Thrown
    | Returned extension =>
        if negb (truthy extension) then Returned VUndefined
        else
          match extension with
          | VStr extension =>
              let extension := toLowerCase extension in
              if bool_decide (extension ∈ dom MimeTypes) then
                Returned (MimeTypes !!! extension)
              else Returned VUndefined
          | _ => Thrown
          end
    end.

(** An option as [url] reads it, from [options || {}]. *)
Definition option_value (h : heap) (options : value) (k : string) : value :=
  get (options_or_empty h options).1 (options_or_empty h options).2 k.

(** ** [src/state/ui/selectors.js] *)

(** A property read that throws on [undefined] and [null], for reads of
    values that were not tested before. *)
Definition get_strict (h : heap) (v : value) (k : string) : result :=
  match v with
  | VUndefined | VNull => Thrown
  | _ => Returned (get h v k)
  end.

(** [state.ui.selectedSiteId], on a state tree kept in the store. *)
Definition getSelectedSiteId (h : heap) (state : value) : result :=
  match get_strict h state "ui" with
  | Returned ui => get_strict h ui "selectedSiteId"
  | Thrown => Thrown
  end.

(** ** [canvasToBlob] *)

(** The canvas elements and the callbacks are kept abstract. [toDataURL] is
    the method of the canvas and [atob] the base64 decoder of the browser;
    each gives [None] when it throws. *)
Variable Canvas : Type.
Variable Callback : Type.
Variable toDataURL : Canvas → value → value → option string.
Variable atob : string → option string.

(** What [HTMLCanvasElement.prototype.toBlob] holds when it is defined: the
    function that was there before, or the one [canvasToBlob] installs. *)
Inductive toBlob_method :=
  | ExistingToBlob
  | PolyfillToBlob.

(** The arguments of [new Blob(parts, { type })]; a part is the content of a
    [Uint8Array]. *)
Record blob_init := BlobInit {
  blob_parts : list (list N);
  blob_type : value
}.

(** What a call of [canvas.toBlob] does: the function that was there before
    is entered with the arguments, or the polyfill calls the callback with a
    new blob, or an exception leaves the call. *)
Inductive toBlob_outcome :=
  | ExistingCalled (canvas : Canvas) (callback : Callback) (type quality : value)
  | CallbackCalled (callback : Callback) (blob : blob_init)
  | Raised.

(** [s.split(sep)] for a separator of one character. *)
Fixpoint split_on (sep : ascii) (s : string) : list string :=
  match s with
  | EmptyString => [EmptyString]
  | String c t =>
      if Ascii.eqb c sep then EmptyString :: split_on sep t
      else
        match split_on sep t with
        | field :: fields => String c field :: fields
        | [] => [String c EmptyString]
        end
  end.

(** Whether a character occurs in a string. *)
Fixpoint has_char (c : ascii) (s : string) : bool :=
  match s with
  | EmptyString => false
  | String c' t => Ascii.eqb c' c || has_char c t
  end.

(** [v === undefined || v === null]. *)
Definition is_nullish (v : value) : bool :=
  match v with
  | VUndefined | VNull => true
  | _ => false
  end.

(** [fields[i]] on an array of strings. *)
Definition item (fields : list string) (i : nat) : value :=
  match fields !! i with
  | Some s => VStr s
  | None => VUndefined
  end.

(** [s.charCodeAt(i)]; [None] is [NaN], past the end. *)
Definition charCodeAt (s : string) (i : nat) : option N :=
  N_of_ascii <$> String.get i s.

(** [arr[i] = v] on a [Uint8Array]: the value is taken modulo 256 ([NaN]
    gives 0) and an index past the end is ignored. *)
Definition uint8_store (arr : list N) (i : nat) (v : option N) : list N :=
  <[i := match v with Some n => (n mod 256)%N | None => 0%N end]> arr.

(** [for (let i = ...; i < len; i++) arr[i] = binStr.charCodeAt(i)], with
    the number of iterations bounded by [fuel]. *)
Fixpoint fill_from (binStr : string) (len fuel i : nat) (arr : list N)
  : list N :=
  match fuel with
  | O => arr
  | S fuel =>
      if (i <? len)%nat then
        fill_from binStr len fuel (S i) (uint8_store arr i (charCodeAt binStr i))
      else arr
  end.

(** The function the polyfill installs, called on the canvas [this]. The
    loop runs at most [len] times. [atob] turns its argument into a string,
    which for a string or [undefined] is what [to_property_key] gives. *)
Definition toBlob_polyfill (this : Canvas) (polyfillCallback : Callback)
    (polyfillType polyfillQuality : value) : toBlob_outcome :=
  match toDataURL this polyfillType polyfillQuality with
  | None => Raised
  | Some dataURL =>
      match atob (to_property_key (item (split_on "," dataURL) 1)) with
      | None => Raised
      | Some binStr =>
          let len := String.length binStr in
          let arr := replicate len 0%N in
          let arr := fill_from binStr len len 0 arr in
          CallbackCalled polyfillCallback
            (BlobInit [arr] (or_else polyfillType (VStr "image/png")))
      end
  end.

(** [canvasToBlob], on the content of [HTMLCanvasElement.prototype.toBlob]
    ([None] when it is not defined): the new content and what the call of
    [canvas.toBlob] does. The canvas has no [toBlob] of its own. *)
Definition canvasToBlob (toBlob : option toBlob_method) (canvas : Canvas)
    (callback : Callback) (type quality : value)
  : option toBlob_method * toBlob_outcome :=
  let toBlob :=
    match toBlob with
    | None => Some PolyfillToBlob
    | Some _ => toBlob
    end in
  (toBlob,
   match toBlob with
   | Some ExistingToBlob => ExistingCalled canvas callback type quality
   | Some PolyfillToBlob => toBlob_polyfill canvas callback type quality
   | None => Raised
   end).

(** *** The two paths of [getSite] *)

Lemma assign_lookup (target source : obj) (k : string) :
  assign target source !! k =
  match source !! k with
  | Some v => Some v
  | None => target !! k
  end.
Proof.
  unfold assign. rewrite lookup_union.
  destruct (source !! k), (target !! k); reflexivity.
Qed.

Lemma alloc_fresh (h : heap) (o : obj) :
  ∃ l, alloc h o = (<[l := o]> h, VObj l) ∧ l ∉ dom h.
Proof. exists (fresh (dom h)). split; [reflexivity | apply is_fresh]. Qed.

Lemma getSite_unresolved state k w :
  truthy (getRawSite state k) = false →
  truthy (getSiteBySlug state k) = false →
  getSite state k w = (Returned VNull, w).
Proof.
  intros Hid Hslug. unfold getSite, or_else.
  rewrite Hid, Hslug. reflexivity.
Qed.

Lemma getSite_hit state k w r v :
  resolves_to state k r →
  getSiteCache w !! r = Some v →
  truthy v = true →
  getSite state k w = (Returned v, w).
Proof.
  intros Hres Hc Hv. unfold resolves_to in Hres.
  unfold getSite. cbv zeta. rewrite !Hres.
  assert (Hget : weakmap_get (getSiteCache w) (VObj r) = v).
  { unfold weakmap_get. rewrite Hc. reflexivity. }
  rewrite Hget. cbn [truthy negb]. rewrite Hv. reflexivity.
Qed.

Lemma getSite_miss state k w r :
  resolves_to state k r →
  truthy (weakmap_get (getSiteCache w) (VObj r)) = false →
  ∃ l, (l ∉ dom (objects w)) ∧
       getSite state k w =
       (Returned (VObj l),
        World (<[l := computed_fields state (objects w) (VObj r)]> (objects w))
              (<[r := VObj l]> (getSiteCache w))).
Proof.
  intros Hres Hc. unfold resolves_to in Hres.
  unfold getSite. cbv zeta. rewrite !Hres.
  cbn [truthy negb]. rewrite Hc.
  destruct (alloc_fresh (objects w) (computed_fields state (objects w) (VObj r)))
    as (l & Hl & Hfresh).
  exists l. split; [assumption |].
  unfold computed_fields in Hl. rewrite Hl. reflexivity.
Qed.

(** [getSite] keeps the cache well formed and only adds objects. *)
Lemma getSite_wf state k w :
  wf_world w → wf_world (getSite state k w).2.
Proof.
  intros Hwf.
  destruct (or_else (getRawSite state k) (getSiteBySlug state k))
    as [| |b|n|s|r] eqn:Hres.
  1-5: unfold getSite, alloc; cbv zeta; rewrite !Hres;
       cbn [weakmap_get weakmap_set truthy negb];
       repeat case_match; exact Hwf.
  destruct (truthy (weakmap_get (getSiteCache w) (VObj r))) eqn:Hc.
  - unfold getSite. cbv zeta. rewrite !Hres. cbn [truthy negb].
    rewrite Hc. exact Hwf.
  - destruct (getSite_miss state k w r Hres Hc) as (l & Hfresh & ->).
    intros r' v Hv. cbn [snd objects getSiteCache] in *.
    rewrite dom_insert_L.
    destruct (decide (r = r')) as [->|Hne].
    + rewrite lookup_insert_eq in Hv. injection Hv as <-.
      exists l. split; [reflexivity |].
      apply elem_of_union. left. apply elem_of_singleton. reflexivity.
    + rewrite lookup_insert_ne in Hv by assumption.
      destruct (Hwf r' v Hv) as (l' & -> & Hin).
      exists l'. split; [reflexivity |].
      apply elem_of_union. right. exact Hin.
Qed.

Lemma clearCache_wf w : wf_world (clearCache w).2.
Proof. intros r v Hv. simpl in Hv. rewrite lookup_empty in Hv. discriminate. Qed.

(** The invariant holds in every world the selectors reach. *)
Lemma reachable_wf w : reachable w → wf_world w.
Proof.
  induction 1 as [h | state k w _ IH | w _ _].
  - intros r v Hv. cbn in Hv. rewrite lookup_empty in Hv. discriminate.
  - apply getSite_wf. exact IH.
  - apply clearCache_wf.
Qed.

(** A lookup followed by a lookup of the same raw site, under any two keys:
    the second one is a cache hit on the object the first one returned. *)
Lemma getSite_then_hit state k1 k2 w r :
  wf_world w →
  resolves_to state k1 r →
  resolves_to state k2 r →
  ∃ l, (getSite state k1 w).1 = Returned (VObj l) ∧
       getSite state k2 (getSite state k1 w).2 =
       (Returned (VObj l), (getSite state k1 w).2).
Proof.
  intros Hwf H1 H2.
  destruct (getSiteCache w !! r) as [v|] eqn:Hc.
  - destruct (Hwf r v Hc) as (l & -> & _).
    exists l.
    rewrite (getSite_hit state k1 w r (VObj l) H1 Hc eq_refl).
    split; [reflexivity |].
    apply (getSite_hit state k2 w r (VObj l) H2 Hc eq_refl).
  - assert (Hmiss : truthy (weakmap_get (getSiteCache w) (VObj r)) = false).
    { unfold weakmap_get. rewrite Hc. reflexivity. }
    destruct (getSite_miss state k1 w r H1 Hmiss) as (l & _ & ->).
    exists l. split; [reflexivity |].
    apply (getSite_hit state k2 _ r (VObj l) H2); [| reflexivity].
    cbn [snd getSiteCache]. apply lookup_insert_eq.
Qed.

(** Two keys that resolve to the same raw site give the same call. *)
Lemma getSite_same_raw_site state k1 k2 w r :
  resolves_to state k1 r →
  resolves_to state k2 r →
  getSite state k1 w = getSite state k2 w.
Proof.
  unfold resolves_to, getSite. intros H1 H2. cbv zeta.
  rewrite !H1, !H2. reflexivity.
Qed.

(** *** Properties of [getSite] and [clearCache] *)

(** C1. When the key resolves to a raw site [R] that has no cache entry,
    [getSite] returns a new object whose properties are those of [R],
    overridden by the site-computed attributes of [R.ID], overridden by the
    Jetpack-computed attributes of [R.ID]. *)
Theorem getSite_merges_attributes state k w r R :
  resolves_to state k r →
  objects w !! r = Some R →
  getSiteCache w !! r = None →
  let id := get (objects w) (VObj r) "ID" in
  ∃ l w' site,
    getSite state k w = (Returned (VObj l), w') ∧
    (l ∉ dom (objects w)) ∧
    objects w' !! l = Some site ∧
    ∀ key, site !! key =
           match getJetpackComputedAttributes state id !! key with
           | Some v => Some v
           | None =>
               match getSiteComputedAttributes state id !! key with
               | Some v => Some v
               | None => R !! key
               end
           end.
Proof.
  intros Hres HR Hc id.
  assert (Hmiss : truthy (weakmap_get (getSiteCache w) (VObj r)) = false).
  { unfold weakmap_get. rewrite Hc. reflexivity. }
  destruct (getSite_miss state k w r Hres Hmiss) as (l & Hfresh & Hcall).
  eexists l, _, _. split; [exact Hcall |]. split; [exact Hfresh |].
  split; [apply lookup_insert_eq |].
  intros key. unfold computed_fields. rewrite !assign_lookup.
  fold id. cbn [own_props]. rewrite HR. reflexivity.
Qed.

(** C2. Two successive calls with a key that resolves to the same raw site
    return the same object reference, and the second call changes neither
    the store nor the cache (nothing is recomputed). *)
Theorem getSite_reference_stable state k w r :
  wf_world w →
  resolves_to state k r →
  ∃ l, (getSite state k w).1 = Returned (VObj l) ∧
       getSite state k (getSite state k w).2 =
       (Returned (VObj l), (getSite state k w).2).
Proof. intros Hwf Hres. exact (getSite_then_hit state k k w r Hwf Hres Hres). Qed.

(** C4. A key that neither lookup resolves gives [null], and the cache (and
    the store) is left as it was. *)
Theorem getSite_unresolved_keeps_cache state k w :
  truthy (getRawSite state k) = false →
  truthy (getSiteBySlug state k) = false →
  (getSite state k w).1 = Returned VNull ∧
  getSiteCache (getSite state k w).2 = getSiteCache w ∧
  objects (getSite state k w).2 = objects w.
Proof.
  intros Hid Hslug. rewrite (getSite_unresolved state k w Hid Hslug).
  repeat split.
Qed.

(** C5. [clearCache] returns [undefined], always succeeds and leaves an
    empty cache; the next lookup of a raw site that had a cache entry builds
    the merged object again, at a new reference that differs from the entry
    held before the clear. *)
Theorem clearCache_forces_recomputation state k w r old :
  wf_world w →
  resolves_to state k r →
  getSiteCache w !! r = Some old →
  (clearCache w).1 = Returned VUndefined ∧
  getSiteCache (clearCache w).2 = ∅ ∧
  ∃ l w',
    getSite state k (clearCache w).2 = (Returned (VObj l), w') ∧
    VObj l ≠ old ∧
    (l ∉ dom (objects w)) ∧
    objects w' !! l = Some (computed_fields state (objects w) (VObj r)) ∧
    getSiteCache w' !! r = Some (VObj l).
Proof.
  intros Hwf Hres Hold. split; [reflexivity |]. split; [reflexivity |].
  destruct (getSite_miss state k (clearCache w).2 r Hres eq_refl)
    as (l & Hfresh & Hcall).
  cbn [clearCache snd objects getSiteCache] in *.
  eexists l, _. split; [exact Hcall |].
  split.
  { destruct (Hwf r old Hold) as (l' & -> & Hin). intros [= ->]. contradiction. }
  split; [exact Hfresh |].
  split; apply lookup_insert_eq.
Qed.

(** C6. When a numeric ID and a slug resolve to the same raw site object,
    the lookup by ID and the lookup by slug are the same call, and whichever
    comes second returns the object the first one returned, from the cache:
    the entry belongs to the raw site, not to the key. *)
Theorem getSite_id_and_slug_share_entry state id slug w r :
  wf_world w →
  resolves_to state id r →
  resolves_to state slug r →
  getSite state id w = getSite state slug w ∧
  (∃ l, (getSite state id w).1 = Returned (VObj l) ∧
        getSite state slug (getSite state id w).2 =
        (Returned (VObj l), (getSite state id w).2)) ∧
  (∃ l, (getSite state slug w).1 = Returned (VObj l) ∧
        getSite state id (getSite state slug w).2 =
        (Returned (VObj l), (getSite state slug w).2)).
Proof.
  intros Hwf H1 H2.
  split; [exact (getSite_same_raw_site state id slug w r H1 H2) |].
  split.
  - exact (getSite_then_hit state id slug w r Hwf H1 H2).
  - exact (getSite_then_hit state slug id w r Hwf H2 H1).
Qed.

(** The call serves the raw site the key resolves to. *)
Lemma getSite_serves_resolved state k w r :
  resolves_to state k r →
  serves_raw_site state r w (getSite state k w).
Proof.
  intros Hres.
  destruct (truthy (weakmap_get (getSiteCache w) (VObj r))) eqn:Hc.
  - left. unfold weakmap_get in Hc.
    destruct (getSiteCache w !! r) as [v|] eqn:Hv; [| discriminate].
    cbn in Hc. exists v. split; [reflexivity |]. split; [exact Hc |].
    exact (getSite_hit state k w r v Hres Hv Hc).
  - right. split; [exact Hc |].
    destruct (getSite_miss state k w r Hres Hc) as (l & Hfresh & Hcall).
    exists l. split; assumption.
Qed.

(** C3. The raw site is resolved by ID first, and by slug only when that
    fails. When the lookup by ID gives a raw site, [getSite] serves that
    site, whatever the lookup by slug answers for the key: it returns the
    object cached for it, or builds, caches and returns its computed site.
    When the lookup by ID fails and the lookup by slug gives a raw site,
    [getSite] serves that one. When both fail it returns [null], without
    throwing and without touching the store or the cache. *)
Theorem getSite_lookup_order state k w :
  (∀ r, getRawSite state k = VObj r →
        serves_raw_site state r w (getSite state k w)) ∧
  (∀ r, truthy (getRawSite state k) = false →
        getSiteBySlug state k = VObj r →
        serves_raw_site state r w (getSite state k w)) ∧
  (truthy (getRawSite state k) = false →
   truthy (getSiteBySlug state k) = false →
   getSite state k w = (Returned VNull, w)).
Proof.
  split; [| split].
  - intros r Hid. apply getSite_serves_resolved.
    unfold resolves_to, or_else. rewrite Hid. reflexivity.
  - intros r Hid Hslug. apply getSite_serves_resolved.
    unfold resolves_to, or_else. rewrite Hid. exact Hslug.
  - intros Hid Hslug. apply getSite_unresolved; assumption.
Qed.

(** *** Reading through [options || {}] *)

Lemma own_props_options_or_empty h options v :
  own_props (options_or_empty h options).1 v = own_props h v.
Proof.
  unfold options_or_empty. destruct (truthy options); [reflexivity |].
  destruct v as [| | | | |l]; try reflexivity.
  cbn [alloc fst own_props].
  destruct (decide (fresh (dom h) = l)) as [<-|Hne].
  - rewrite lookup_insert_eq.
    rewrite (not_elem_of_dom_1 h (fresh (dom h)) (is_fresh (dom h))).
    reflexivity.
  - rewrite lookup_insert_ne by assumption. reflexivity.
Qed.

Lemma get_options_or_empty h options v k :
  get (options_or_empty h options).1 v k = get h v k.
Proof. unfold get. rewrite own_props_options_or_empty. reflexivity. Qed.

Lemma thumbnail_in_options_or_empty h options thumbnails size :
  thumbnail_in (options_or_empty h options).1 thumbnails size =
  thumbnail_in h thumbnails size.
Proof.
  unfold thumbnail_in, has_property.
  rewrite own_props_options_or_empty. reflexivity.
Qed.

(** An own property of the thumbnails object passes the [in] test. *)
Lemma thumbnail_in_own h thumbnails size l t :
  thumbnails = VObj l →
  own_props h thumbnails !! size = Some t →
  thumbnail_in h thumbnails size = Some true.
Proof.
  intros -> Hown. unfold thumbnail_in, has_property. cbn [truthy].
  rewrite bool_decide_eq_true_2; [reflexivity |].
  left. apply elem_of_dom. exists t. exact Hown.
Qed.

(** [url] on a media object that is not transient and has a URL. *)
Lemma url_not_transient h media options :
  truthy media = true →
  truthy (get h media "transient") = false →
  truthy (get h media "URL") = true →
  url h media options =
  let opt := option_value h options in
  let size := to_property_key (opt "size") in
  match thumbnail_in h (get h media "thumbnails") size with
  | None => Thrown
  | Some true => Returned (get h (get h media "thumbnails") size)
  | Some false =>
      if truthy (opt "maxWidth") then
        resize (get h media "URL") {[ "w" := opt "maxWidth" ]}
      else if truthy (opt "resize") then
        resize (get h media "URL") {[ "resize" := opt "resize" ]}
      else Returned (get h media "URL")
  end.
Proof.
  intros Hm Ht Hu. unfold url, option_value. rewrite Hm, Ht, Hu.
  cbn [negb].
  pose proof (get_options_or_empty h options) as Hget.
  pose proof (thumbnail_in_options_or_empty h options) as Hin.
  destruct (options_or_empty h options) as [h' o]. cbn [fst snd] in *.
  cbv zeta.
  rewrite !(Hget media), Hin, (Hget (get h media "thumbnails")). reflexivity.
Qed.

(** Without a truthy [options.photon] the two copies of [url] agree. *)
Lemma url_photon_off h media options :
  truthy (option_value h options "photon") = false →
  url_photon h media options = url h media options.
Proof.
  unfold url_photon, url, option_value. intros Hp.
  destruct (options_or_empty h options) as [h' o]. cbn [fst snd] in Hp.
  rewrite Hp. reflexivity.
Qed.

(** *** Properties of [url] *)

(** The [in] test fails on thumbnails that are absent, and on a thumbnails
    object that neither owns nor inherits the name. *)
Lemma thumbnail_in_none h thumbnails size :
  truthy thumbnails = false ∨
  (∃ l, thumbnails = VObj l ∧
        own_props h thumbnails !! size = None ∧
        ObjectPrototype !! size = None) →
  thumbnail_in h thumbnails size = Some false.
Proof.
  unfold thumbnail_in, has_property.
  intros [Hfalsy | (l & -> & Hown & Hproto)].
  - rewrite Hfalsy. reflexivity.
  - cbn [truthy]. rewrite bool_decide_eq_false_2; [reflexivity |].
    intros [Hin | Hin]; apply elem_of_dom in Hin as [x Hx]; congruence.
Qed.

(** C7 (amended). For a media object that is not transient and has a truthy
    URL, and whose [thumbnails] are absent or an object: a thumbnail that
    the thumbnails object holds as its own property under the name
    [options.size] is returned before anything else, whatever [maxWidth] and
    [resize] are; when the thumbnails are absent, or have no property of
    that name at all, a truthy [maxWidth] gives the width resize, failing
    that a truthy [resize] gives the named resize, and failing that the raw
    URL is returned. Absent media and media without a URL give [undefined],
    and so does media that is not transient and has a falsy URL. The older
    copy of [url] does the same whenever [options.photon] is not set. *)
Theorem url_precedence h media options :
  let URL := get h media "URL" in
  let thumbnails := get h media "thumbnails" in
  let opt := option_value h options in
  let size := to_property_key (opt "size") in
  (truthy media = false ∨ URL = VUndefined ∨
   (truthy (get h media "transient") = false ∧ truthy URL = false) →
   url h media options = Returned VUndefined) ∧
  (truthy media = true →
   truthy (get h media "transient") = false →
   truthy URL = true →
   (∀ l t, thumbnails = VObj l →
           own_props h thumbnails !! size = Some t →
           url h media options = Returned t) ∧
   (truthy thumbnails = false ∨
    (∃ l, thumbnails = VObj l ∧
          own_props h thumbnails !! size = None ∧
          ObjectPrototype !! size = None) →
    url h media options =
    if truthy (opt "maxWidth") then resize URL {[ "w" := opt "maxWidth" ]}
    else if truthy (opt "resize") then resize URL {[ "resize" := opt "resize" ]}
    else Returned URL)) ∧
  (truthy (opt "photon") = false →
   url_photon h media options = url h media options).
Proof.
  intros URL thumbnails opt size. split; [| split].
  - unfold url. intros [Hm | [Hu | [Ht Hu]]].
    + rewrite Hm. reflexivity.
    + fold URL. rewrite Hu. cbn [truthy negb].
      destruct (truthy media); [| reflexivity].
      destruct (truthy (get h media "transient")); reflexivity.
    + fold URL. rewrite Ht, Hu. cbn [negb].
      destruct (truthy media); reflexivity.
  - intros Hm Ht Hu.
    pose proof (url_not_transient h media options Hm Ht Hu) as Hurl.
    cbv zeta in Hurl. fold URL thumbnails opt size in Hurl.
    split.
    + intros l t Hobj Hown.
      rewrite (thumbnail_in_own h thumbnails size l t Hobj Hown) in Hurl.
      rewrite Hurl. unfold get. rewrite Hown. reflexivity.
    + intros Hnone.
      rewrite (thumbnail_in_none h thumbnails size Hnone) in Hurl. exact Hurl.
  - apply url_photon_off.
Qed.

(** C10. A media object whose [transient] field is truthy gets its [URL]
    field back as it is, whatever the options: neither thumbnails nor
    [maxWidth] nor [resize] are looked at, and a missing URL comes back as
    [undefined]. Both copies of [url] behave so. *)
Theorem url_transient h media options :
  truthy media = true →
  truthy (get h media "transient") = true →
  url h media options = Returned (get h media "URL") ∧
  url_photon h media options = Returned (get h media "URL") ∧
  (get h media "URL" = VUndefined →
   url h media options = Returned VUndefined ∧
   url_photon h media options = Returned VUndefined).
Proof.
  intros Hm Ht.
  assert (H1 : url h media options = Returned (get h media "URL")).
  { unfold url. rewrite Hm, Ht. reflexivity. }
  assert (H2 : url_photon h media options = Returned (get h media "URL")).
  { unfold url_photon. rewrite Hm, Ht. reflexivity. }
  split; [exact H1 |]. split; [exact H2 |].
  intros Hu. rewrite H1, H2, Hu. split; reflexivity.
Qed.

(** *** Properties of [getFileExtension] and [getMimeType] *)

Lemma truthy_nonempty s : s ≠ ""%string → truthy (VStr s) = true.
Proof.
  intros Hs. cbn [truthy]. destruct (String.eqb_spec s ""); [contradiction | reflexivity].
Qed.

Lemma call_string_method_not_undefined f r :
  call_string_method f r ≠ Returned VUndefined.
Proof. destruct r as [[]|]; discriminate. Qed.

(** C8 (amended). [getFileExtension] leaves the case of the extension as it
    finds it. For a path string, a URI, a [File] or metadata with a URL the
    result is what [path.extname] gives, without its first character; for
    metadata with a truthy [extension] field it is that field, unchanged. The
    result is [undefined] only for falsy media: where [path.extname] finds no
    extension the result is the empty string. *)
Theorem getFileExtension_keeps_case h media :
  (getFileExtension h media = Returned VUndefined ↔ truthy media = false) ∧
  (truthy media = true →
   (∀ e, is_string media = true →
         truthy (isUri media) = false →
         extname media = Returned (VStr e) →
         getFileExtension h media = Returned (VStr (slice1 e))) ∧
   (∀ p e, is_string media = true →
           truthy (isUri media) = true →
           urlParsePathname media = Returned p →
           extname p = Returned (VStr e) →
           getFileExtension h media = Returned (VStr (slice1 e))) ∧
   (∀ e, is_string media = false →
         fileInWindow && instanceofFile media = true →
         extname (get h media "name") = Returned (VStr e) →
         getFileExtension h media = Returned (VStr (slice1 e))) ∧
   (is_string media = false →
    fileInWindow && instanceofFile media = false →
    truthy (get h media "extension") = true →
    getFileExtension h media = Returned (get h media "extension")) ∧
   (∀ p e, is_string media = false →
           fileInWindow && instanceofFile media = false →
           truthy (get h media "extension") = false →
           urlParsePathname
             (or_else (or_else (or_else (get h media "URL") (get h media "file"))
                               (get h media "guid"))
                      (VStr "")) = Returned p →
           extname (or_else p (VStr "")) = Returned (VStr e) →
           getFileExtension h media = Returned (VStr (slice1 e)))).
Proof.
  split.
  - unfold getFileExtension. split.
    + destruct (truthy media) eqn:Hm; [| reflexivity]. cbn [negb]. cbv zeta.
      intros H. exfalso. revert H.
      destruct (is_string media).
      { destruct (if truthy (isUri media) then _ else _);
          [apply call_string_method_not_undefined | discriminate]. }
      destruct (fileInWindow && instanceofFile media).
      { apply call_string_method_not_undefined. }
      destruct (truthy (get h media "extension")) eqn:He.
      { intros [= Hx]. rewrite Hx in He. discriminate. }
      destruct (urlParsePathname _);
        [apply call_string_method_not_undefined | discriminate].
    + intros ->. reflexivity.
  - intros Hm. unfold getFileExtension. rewrite Hm. cbn [negb]. cbv zeta.
    split; [| split; [| split; [| split]]].
    + intros e -> -> ->. reflexivity.
    + intros p e -> -> -> ->. reflexivity.
    + intros e -> -> ->. reflexivity.
    + intros -> -> ->. reflexivity.
    + intros p e -> -> -> -> ->. reflexivity.
Qed.

(** C9 (amended). [getMimeType] answers from the table only for media that
    has no truthy [mime_type] and is not a [File]: it then returns
    [undefined] when [getFileExtension] gives a falsy value or a string whose
    lowercase form is not a key of [MimeTypes], and the entry of the table when
    it is a key. Media with a truthy [mime_type] gets that field back, a
    [File] gets its [type], and falsy media gets [undefined]. *)
Theorem getMimeType_lookup h media :
  (truthy media = false → getMimeType h media = Returned VUndefined) ∧
  (truthy media = true →
   truthy (get h media "mime_type") = true →
   getMimeType h media = Returned (get h media "mime_type")) ∧
  (truthy media = true →
   truthy (get h media "mime_type") = false →
   fileInWindow && instanceofFile media = true →
   getMimeType h media = Returned (get h media "type")) ∧
  (truthy media = true →
   truthy (get h media "mime_type") = false →
   fileInWindow && instanceofFile media = false →
   (∀ extension, getFileExtension h media = Returned extension →
                 truthy extension = false →
                 getMimeType h media = Returned VUndefined) ∧
   (∀ s, getFileExtension h media = Returned (VStr s) →
         s ≠ ""%string →
         MimeTypes !! toLowerCase s = None →
         getMimeType h media = Returned VUndefined) ∧
   (∀ s mime, getFileExtension h media = Returned (VStr s) →
              s ≠ ""%string →
              MimeTypes !! toLowerCase s = Some mime →
              getMimeType h media = Returned mime)).
Proof.
  unfold getMimeType. split; [| split; [| split]].
  - intros ->. reflexivity.
  - intros -> ->. reflexivity.
  - intros -> -> ->. reflexivity.
  - intros -> -> ->. cbn [negb]. split; [| split].
    + intros extension -> ->. reflexivity.
    + intros s -> Hs Hnone. rewrite (truthy_nonempty s Hs).
      cbn [negb]. cbv zeta.
      rewrite bool_decide_eq_false_2; [reflexivity |].
      apply not_elem_of_dom. exact Hnone.
    + intros s mime -> Hs Hsome. rewrite (truthy_nonempty s Hs).
      cbn [negb]. cbv zeta.
      rewrite bool_decide_eq_true_2 by (apply elem_of_dom; eauto).
      rewrite (lookup_total_correct _ _ _ Hsome). reflexivity.
Qed.

(** *** Further properties of [getSite]: what a call does to the world *)

(** A call either leaves the world as it is, or stores one new object (the
    computed site) and points the entry of the raw site to it. *)
Lemma getSite_world state k w :
  (getSite state k w).2 = w ∨
  ∃ r l, resolves_to state k r ∧
         (l ∉ dom (objects w)) ∧
         truthy (weakmap_get (getSiteCache w) (VObj r)) = false ∧
         getSite state k w =
         (Returned (VObj l),
          World (<[l := computed_fields state (objects w) (VObj r)]> (objects w))
                (<[r := VObj l]> (getSiteCache w))).
Proof.
  destruct (or_else (getRawSite state k) (getSiteBySlug state k))
    as [| |b|n|s|r] eqn:Hres.
  1-5: left; unfold getSite, alloc; cbv zeta; rewrite !Hres;
       cbn [weakmap_get weakmap_set truthy negb];
       repeat case_match; reflexivity.
  destruct (truthy (weakmap_get (getSiteCache w) (VObj r))) eqn:Hc.
  - left. unfold getSite. cbv zeta. rewrite !Hres. cbn [truthy negb].
    rewrite Hc. reflexivity.
  - right. destruct (getSite_miss state k w r Hres Hc) as (l & Hfresh & Hcall).
    exists r, l. repeat split; assumption.
Qed.

(** An unresolved key, said with [||]. *)
Lemma getSite_unresolved_or state k w :
  truthy (or_else (getRawSite state k) (getSiteBySlug state k)) = false →
  getSite state k w = (Returned VNull, w).
Proof. intros H. unfold getSite. cbv zeta. rewrite H. reflexivity. Qed.

(** Under the invariant, an entry that is present is truthy. *)
Lemma wf_entry_truthy w r v :
  wf_world w → getSiteCache w !! r = Some v → truthy v = true.
Proof. intros Hwf Hv. destruct (Hwf r v Hv) as (l & -> & _). reflexivity. Qed.

(** In every world the selectors reach, what the cache holds for a raw
    site is a reference to an object of the store. *)
Theorem reachable_cache_holds_objects w r v :
  reachable w →
  getSiteCache w !! r = Some v →
  ∃ l, v = VObj l ∧ l ∈ dom (objects w).
Proof. intros Hreach. exact (reachable_wf w Hreach r v). Qed.

(** Under the invariant a call keeps the entries that are there. *)
Lemma getSite_keeps_entries state k w r v :
  wf_world w →
  getSiteCache w !! r = Some v →
  getSiteCache (getSite state k w).2 !! r = Some v.
Proof.
  intros Hwf Hv.
  destruct (getSite_world state k w) as [-> | (r' & l & _ & _ & Hmiss & ->)];
    [exact Hv |].
  cbn [snd getSiteCache]. rewrite lookup_insert_ne; [exact Hv |].
  intros ->. pose proof (wf_entry_truthy w r v Hwf Hv) as Ht.
  unfold weakmap_get in Hmiss. rewrite Hv in Hmiss. cbn in Hmiss.
  rewrite Ht in Hmiss. discriminate.
Qed.

(** A truthy raw site that is not an object: the [WeakMap] refuses it. *)
Lemma getSite_refused_key state k w v :
  or_else (getRawSite state k) (getSiteBySlug state k) = v →
  truthy v = true →
  (∀ r, v ≠ VObj r) →
  getSite state k w = (Thrown, w).
Proof.
  intros Hres Ht Hprim. unfold getSite, alloc. cbv zeta. rewrite !Hres, Ht.
  destruct v as [| |b|n|s|r]; try reflexivity.
  exfalso. exact (Hprim r eq_refl).
Qed.

(** [getSite] never changes or removes an object of the store: the raw
    sites and the computed sites handed out earlier stay as they are. *)
Theorem getSite_keeps_objects state k w l o :
  objects w !! l = Some o →
  objects (getSite state k w).2 !! l = Some o.
Proof.
  intros Hl.
  destruct (getSite_world state k w) as [-> | (r & l' & _ & Hfresh & _ & ->)];
    [exact Hl |].
  cbn [snd objects]. rewrite lookup_insert_ne; [exact Hl |].
  intros ->. apply Hfresh. apply elem_of_dom. eauto.
Qed.


(** The cache does not look at the state: once a raw site has an entry, a
    lookup made under another state (where the computed attributes may have
    changed) that resolves to the same raw site object still returns the
    object built under the first state. *)
Theorem getSite_ignores_state_change state1 state2 k1 k2 w r :
  wf_world w →
  resolves_to state1 k1 r →
  resolves_to state2 k2 r →
  ∃ l, (getSite state1 k1 w).1 = Returned (VObj l) ∧
       getSite state2 k2 (getSite state1 k1 w).2 =
       (Returned (VObj l), (getSite state1 k1 w).2).
Proof.
  intros Hwf H1 H2.
  destruct (getSiteCache w !! r) as [v|] eqn:Hc.
  - destruct (Hwf r v Hc) as (l & -> & _).
    exists l.
    rewrite (getSite_hit state1 k1 w r (VObj l) H1 Hc eq_refl).
    split; [reflexivity |].
    apply (getSite_hit state2 k2 w r (VObj l) H2 Hc eq_refl).
  - assert (Hmiss : truthy (weakmap_get (getSiteCache w) (VObj r)) = false).
    { unfold weakmap_get. rewrite Hc. reflexivity. }
    destruct (getSite_miss state1 k1 w r H1 Hmiss) as (l & _ & ->).
    exists l. split; [reflexivity |].
    apply (getSite_hit state2 k2 _ r (VObj l) H2); [| reflexivity].
    cbn [snd getSiteCache]. apply lookup_insert_eq.
Qed.

(** Lookups of other keys, under any state, do not evict an entry: after a
    site was looked up, and whatever was looked up next, looking it up again
    returns the same object and changes nothing. *)
Theorem getSite_no_eviction state k w r state' k' :
  wf_world w →
  resolves_to state k r →
  ∃ l, (getSite state k w).1 = Returned (VObj l) ∧
       let w2 := (getSite state' k' (getSite state k w).2).2 in
       getSite state k w2 = (Returned (VObj l), w2).
Proof.
  intros Hwf Hres.
  destruct (getSite_then_hit state k k w r Hwf Hres Hres) as (l & Hfirst & Hagain).
  exists l. split; [exact Hfirst |]. cbv zeta.
  pose proof (getSite_wf state k w Hwf) as Hwf1.
  set (w1 := (getSite state k w).2) in *.
  assert (Hentry : getSiteCache w1 !! r = Some (VObj l)).
  { destruct (getSiteCache w1 !! r) as [v|] eqn:Hc.
    - rewrite (getSite_hit state k w1 r v Hres Hc
                 (wf_entry_truthy w1 r v Hwf1 Hc)) in Hagain.
      congruence.
    - assert (Hmiss : truthy (weakmap_get (getSiteCache w1) (VObj r)) = false).
      { unfold weakmap_get. rewrite Hc. reflexivity. }
      destruct (getSite_miss state k w1 r Hres Hmiss) as (l' & Hfresh & Hcall).
      rewrite Hcall in Hagain. injection Hagain as _ Hw.
      exfalso. apply Hfresh. rewrite <- Hw at 1. cbn [objects].
      rewrite dom_insert_L. apply elem_of_union. left.
      apply elem_of_singleton. reflexivity. }
  apply (getSite_hit state k _ r (VObj l) Hres
           (getSite_keeps_entries state' k' w1 r (VObj l) Hwf1 Hentry) eq_refl).
Qed.

(** A lookup that resolves to a truthy value that is not an object throws
    (the [WeakMap] refuses the key) and leaves the world as it was. *)
Theorem getSite_throws_on_primitive state k w v :
  or_else (getRawSite state k) (getSiteBySlug state k) = v →
  truthy v = true →
  (∀ r, v ≠ VObj r) →
  getSite state k w = (Thrown, w).
Proof. exact (getSite_refused_key state k w v). Qed.

(** What [getSite] can give back, in a world that satisfies the invariant:
    [null] exactly for an unresolved key, the reference of an object that
    is in the store when the key resolves to an object, and a throw when it
    resolves to a truthy value that is not an object. It never returns
    [undefined] or a primitive. *)
Theorem getSite_outcome state k w :
  wf_world w →
  match (getSite state k w).1 with
  | Returned VNull =>
      truthy (or_else (getRawSite state k) (getSiteBySlug state k)) = false
  | Returned (VObj l) =>
      l ∈ dom (objects (getSite state k w).2) ∧ ∃ r, resolves_to state k r
  | Returned _ => False
  | Thrown =>
      truthy (or_else (getRawSite state k) (getSiteBySlug state k)) = true ∧
      ∀ r, ¬ resolves_to state k r
  end.
Proof.
  intros Hwf.
  destruct (or_else (getRawSite state k) (getSiteBySlug state k))
    as [| |b|n|s|r] eqn:Hres.
  1,2: rewrite getSite_unresolved_or; [reflexivity | rewrite Hres; reflexivity].
  - destruct b.
    + rewrite (getSite_refused_key state k w _ Hres eq_refl)
        by discriminate.
      split; [reflexivity |]. intros r Hr. unfold resolves_to in Hr. congruence.
    + rewrite getSite_unresolved_or; [reflexivity | rewrite Hres; reflexivity].
  - destruct (truthy (VNum n)) eqn:Hn.
    + rewrite (getSite_refused_key state k w _ Hres Hn) by discriminate.
      split; [reflexivity |]. intros r Hr. unfold resolves_to in Hr. congruence.
    + rewrite getSite_unresolved_or; [reflexivity | rewrite Hres; exact Hn].
  - destruct (truthy (VStr s)) eqn:Hs.
    + rewrite (getSite_refused_key state k w _ Hres Hs) by discriminate.
      split; [reflexivity |]. intros r Hr. unfold resolves_to in Hr. congruence.
    + rewrite getSite_unresolved_or; [reflexivity | rewrite Hres; exact Hs].
  - destruct (getSite_then_hit state k k w r Hwf Hres Hres) as (l & Hfirst & Hagain).
    rewrite Hfirst. split; [| exists r; exact Hres].
    pose proof (getSite_wf state k w Hwf) as Hwf1.
    set (w1 := (getSite state k w).2) in *.
    destruct (getSiteCache w1 !! r) as [v|] eqn:Hc.
    + rewrite (getSite_hit state k w1 r v Hres Hc
                 (wf_entry_truthy w1 r v Hwf1 Hc)) in Hagain.
      injection Hagain as ->.
      destruct (Hwf1 r (VObj l) Hc) as (l' & [= <-] & Hin). exact Hin.
    + assert (Hmiss : truthy (weakmap_get (getSiteCache w1) (VObj r)) = false).
      { unfold weakmap_get. rewrite Hc. reflexivity. }
      destruct (getSite_miss state k w1 r Hres Hmiss) as (l' & Hfresh & Hcall).
      rewrite Hcall in Hagain. injection Hagain as _ Hw.
      exfalso. apply Hfresh. rewrite <- Hw at 1. cbn [objects].
      rewrite dom_insert_L. apply elem_of_union. left.
      apply elem_of_singleton. reflexivity.
Qed.

(** In every world the selectors reach, the cache is injective. *)
Lemma reachable_cache_injective w :
  reachable w →
  ∀ r1 r2 v, getSiteCache w !! r1 = Some v →
             getSiteCache w !! r2 = Some v →
             r1 = r2.
Proof.
  induction 1 as [h | state k w Hreach IH | w _ _].
  - intros r1 r2 v Hv. cbn in Hv. rewrite lookup_empty in Hv. discriminate.
  - pose proof (reachable_wf w Hreach) as Hwf.
    destruct (getSite_world state k w) as [-> | (r & l & _ & Hfresh & _ & ->)];
      [exact IH |].
    cbn [snd getSiteCache]. intros r1 r2 v H1 H2.
    assert (Hold : ∀ r', getSiteCache w !! r' = Some (VObj l) → False).
    { intros r' Hr'. destruct (Hwf r' _ Hr') as (l' & [= <-] & Hin).
      exact (Hfresh Hin). }
    destruct (decide (r = r1)) as [<-|Hn1]; destruct (decide (r = r2)) as [<-|Hn2].
    + reflexivity.
    + rewrite lookup_insert_eq in H1. injection H1 as <-.
      rewrite lookup_insert_ne in H2 by assumption.
      exfalso. exact (Hold r2 H2).
    + rewrite lookup_insert_eq in H2. injection H2 as <-.
      rewrite lookup_insert_ne in H1 by assumption.
      exfalso. exact (Hold r1 H1).
    + rewrite lookup_insert_ne in H1 by assumption.
      rewrite lookup_insert_ne in H2 by assumption.
      exact (IH r1 r2 v H1 H2).
  - intros r1 r2 v Hv. cbn in Hv. rewrite lookup_empty in Hv. discriminate.
Qed.

(** In every world the selectors reach, two different raw sites never share
    a computed site: their entries hold different objects. *)
Theorem reachable_sites_distinct w r1 r2 v1 v2 :
  reachable w →
  r1 ≠ r2 →
  getSiteCache w !! r1 = Some v1 →
  getSiteCache w !! r2 = Some v2 →
  v1 ≠ v2.
Proof.
  intros Hreach Hne H1 H2 Heq. subst v2.
  exact (Hne (reachable_cache_injective w Hreach r1 r2 v1 H1 H2)).
Qed.

(** *** Further properties of [url] *)

Lemma thumbnail_in_throws h thumbnails size :
  thumbnail_in h thumbnails size = None ↔
  truthy thumbnails = true ∧ ∀ l, thumbnails ≠ VObj l.
Proof.
  unfold thumbnail_in, has_property.
  destruct (truthy thumbnails) eqn:Ht.
  - destruct thumbnails as [| |b|n|s|l].
    1-5: split; [intros _; split; [reflexivity | discriminate] | reflexivity].
    split; [discriminate |]. intros [_ Hprim]. exfalso. exact (Hprim l eq_refl).
  - split; [discriminate | intros [? _]; discriminate].
Qed.

(** With [options.photon] set, the older copy of [url] does not look at the
    thumbnails at all: the result is photon's, for the width when [maxWidth]
    is truthy, else for the named resize, else for the plain URL. *)
Theorem url_photon_bypasses_thumbnails h media options :
  let URL := get h media "URL" in
  let opt := option_value h options in
  truthy media = true →
  truthy (get h media "transient") = false →
  truthy URL = true →
  truthy (opt "photon") = true →
  url_photon h media options =
  if truthy (opt "maxWidth") then
    photon URL (Some {[ "width" := opt "maxWidth" ]})
  else if truthy (opt "resize") then
    photon URL (Some {[ "resize" := opt "resize" ]})
  else photon URL None.
Proof.
  intros URL opt Hm Ht Hu Hp. unfold url_photon. rewrite Hm, Ht.
  fold URL. rewrite Hu. cbn [negb].
  unfold opt, option_value in *.
  pose proof (get_options_or_empty h options media "URL") as Hget.
  destruct (options_or_empty h options) as [h' o]. cbn [fst snd] in *.
  rewrite Hp, !Hget. reflexivity.
Qed.

(** Called without options (any falsy [options]), [url] returns the raw URL
    of a media that is not transient, provided no object inherits [size],
    [maxWidth] or [resize] and the thumbnails have no property named
    [undefined], which is the key the missing size is turned into. *)
Theorem url_without_options h media options :
  truthy options = false →
  ObjectPrototype !! "size"%string = None →
  ObjectPrototype !! "maxWidth"%string = None →
  ObjectPrototype !! "resize"%string = None →
  truthy media = true →
  truthy (get h media "transient") = false →
  truthy (get h media "URL") = true →
  thumbnail_in h (get h media "thumbnails") "undefined" = Some false →
  url h media options = Returned (get h media "URL").
Proof.
  intros Ho Hsize Hmax Hres Hm Ht Hu Hin.
  rewrite (url_not_transient h media options Hm Ht Hu). cbv zeta.
  assert (Hopt : ∀ k, ObjectPrototype !! k = None →
                      option_value h options k = VUndefined).
  { intros k Hk. unfold option_value, options_or_empty. rewrite Ho.
    cbn [alloc fst snd]. unfold get. cbn [own_props].
    rewrite lookup_insert_eq. cbn. rewrite lookup_empty, Hk. reflexivity. }
  rewrite (Hopt "size"%string Hsize), (Hopt "maxWidth"%string Hmax),
    (Hopt "resize"%string Hres).
  cbn [to_property_key truthy]. rewrite Hin. reflexivity.
Qed.

(** [url] throws in two cases only, both for media that is not transient
    and has a URL: [media.thumbnails] is truthy but not an object (the [in]
    test throws), or no thumbnail matches and the [resize] that is called
    throws. *)
Theorem url_throws h media options :
  let URL := get h media "URL" in
  let thumbnails := get h media "thumbnails" in
  let opt := option_value h options in
  let size := to_property_key (opt "size") in
  url h media options = Thrown ↔
  truthy media = true ∧
  truthy (get h media "transient") = false ∧
  truthy URL = true ∧
  ((truthy thumbnails = true ∧ ∀ l, thumbnails ≠ VObj l) ∨
   (thumbnail_in h thumbnails size = Some false ∧
    (if truthy (opt "maxWidth") then resize URL {[ "w" := opt "maxWidth" ]}
     else if truthy (opt "resize") then
       resize URL {[ "resize" := opt "resize" ]}
     else Returned URL) = Thrown)).
Proof.
  intros URL thumbnails opt size.
  destruct (truthy media) eqn:Hm.
  2: { unfold url. rewrite Hm. split; [discriminate | intros [? _]; discriminate]. }
  destruct (truthy (get h media "transient")) eqn:Ht.
  { unfold url. rewrite Hm, Ht.
    split; [discriminate | intros (_ & ? & _); discriminate]. }
  destruct (truthy URL) eqn:Hu.
  2: { unfold url. rewrite Hm, Ht. fold URL. rewrite Hu.
       split; [discriminate | intros (_ & _ & ? & _); discriminate]. }
  rewrite (url_not_transient h media options Hm Ht Hu). cbv zeta.
  fold URL thumbnails opt size.
  rewrite <- (thumbnail_in_throws h thumbnails size).
  destruct (thumbnail_in h thumbnails size) as [[]|].
  - split; [discriminate |]. intros (_ & _ & _ & [? | [? _]]); discriminate.
  - split.
    + intros Hthrown. repeat split. right. split; [reflexivity | exact Hthrown].
    + intros (_ & _ & _ & [? | [_ Hthrown]]); [discriminate | exact Hthrown].
  - split; [| reflexivity]. intros _. repeat split. left. reflexivity.
Qed.

(** *** Further properties of [getFileExtension] and [getMimeType] *)

Lemma call_string_method_returned f r v :
  call_string_method f r = Returned v → is_string v = true.
Proof. destruct r as [[]|]; try discriminate. intros [= <-]. reflexivity. Qed.

Lemma lower_ascii_idempotent c : lower_ascii (lower_ascii c) = lower_ascii c.
Proof. destruct c as [[] [] [] [] [] [] [] []]; reflexivity. Qed.

Lemma toLowerCase_idempotent s : toLowerCase (toLowerCase s) = toLowerCase s.
Proof.
  induction s as [| c s IH]; [reflexivity |].
  cbn [toLowerCase]. rewrite lower_ascii_idempotent, IH. reflexivity.
Qed.

(** The results of [getFileExtension], case by case. *)
Lemma getFileExtension_returned h media v :
  getFileExtension h media = Returned v →
  v = VUndefined ∨ is_string v = true ∨
  (is_string media = false ∧ v = get h media "extension" ∧ truthy v = true).
Proof.
  unfold getFileExtension.
  destruct (truthy media); cbn [negb]; [| intros [= <-]; left; reflexivity].
  cbv zeta. destruct (is_string media) eqn:Hstr.
  { destruct (if truthy (isUri media) then _ else _); [| discriminate].
    intros H. right. left. exact (call_string_method_returned _ _ _ H). }
  destruct (fileInWindow && instanceofFile media).
  { intros H. right. left. exact (call_string_method_returned _ _ _ H). }
  destruct (truthy (get h media "extension")) eqn:He.
  { intros [= <-]. right. right. repeat split. exact He. }
  destruct (urlParsePathname _); [| discriminate].
  intros H. right. left. exact (call_string_method_returned _ _ _ H).
Qed.

(** What [getFileExtension] gives back is [undefined] or a string, with one
    exception: a truthy [extension] field of a metadata object comes back
    whatever its type. *)
Theorem getFileExtension_result_type h media v :
  getFileExtension h media = Returned v →
  v = VUndefined ∨ is_string v = true ∨
  (is_string media = false ∧ v = get h media "extension" ∧ truthy v = true).
Proof. exact (getFileExtension_returned h media v). Qed.

(** [getMimeType] throws in two cases only, both for media without
    [mime_type] that is not a [File]: [getFileExtension] throws, or the
    metadata has a truthy [extension] field that is not a string, on which
    [toLowerCase] cannot be called. *)
Theorem getMimeType_throws h media :
  getMimeType h media = Thrown ↔
  truthy media = true ∧
  truthy (get h media "mime_type") = false ∧
  fileInWindow && instanceofFile media = false ∧
  (getFileExtension h media = Thrown ∨
   (is_string media = false ∧
    truthy (get h media "extension") = true ∧
    is_string (get h media "extension") = false)).
Proof.
  unfold getMimeType.
  destruct (truthy media) eqn:Hm; cbn [negb];
    [| split; [discriminate | intros [? _]; discriminate]].
  destruct (truthy (get h media "mime_type")) eqn:Hmime;
    [split; [discriminate | intros (_ & ? & _); discriminate] |].
  destruct (fileInWindow && instanceofFile media) eqn:Hfile;
    [split; [discriminate | intros (_ & _ & ? & _); discriminate] |].
  destruct (getFileExtension h media) as [v|] eqn:Hext.
  2: { split; [| reflexivity]. intros _. repeat split. left. reflexivity. }
  assert (Hfield : is_string media = false →
                   truthy (get h media "extension") = true →
                   v = get h media "extension").
  { intros Hstr He. revert Hext. unfold getFileExtension.
    rewrite Hm, Hstr, Hfile, He. cbn [negb]. cbv zeta. congruence. }
  destruct (getFileExtension_returned h media v Hext)
    as [-> | [Hv | (Hstr & -> & Ht)]].
  - cbn [truthy negb]. split; [discriminate |].
    intros (_ & _ & _ & [? | (Hstr & He & _)]); [discriminate |].
    rewrite <- (Hfield Hstr He) in He. discriminate.
  - destruct v as [| | | |s|]; try discriminate.
    split.
    + destruct (truthy (VStr s)); cbn [negb]; [| discriminate].
      cbv zeta. destruct (bool_decide _); discriminate.
    + intros (_ & _ & _ & [? | (Hstr & He & Hns)]); [discriminate |].
      rewrite <- (Hfield Hstr He) in Hns. discriminate.
  - rewrite Ht. cbn [negb].
    destruct (get h media "extension") as [| | | |s|] eqn:Hx;
      try (split; [intros _; repeat split; right; repeat split; assumption
                  | reflexivity]).
    split.
    + cbv zeta. destruct (bool_decide _); discriminate.
    + intros (_ & _ & _ & [? | (_ & _ & ?)]); discriminate.
Qed.

(** [getMimeType] never makes a type up: what it returns is [undefined], the
    truthy [mime_type] field of the media, the [type] of a [File], or the
    entry of [MimeTypes] under the lowercase form of the extension, a key
    that is itself in lowercase. *)
Theorem getMimeType_range h media v :
  getMimeType h media = Returned v →
  v = VUndefined ∨
  (v = get h media "mime_type" ∧ truthy v = true) ∨
  (fileInWindow && instanceofFile media = true ∧ v = get h media "type") ∨
  ∃ s key, getFileExtension h media = Returned (VStr s) ∧
           key = toLowerCase s ∧
           toLowerCase key = key ∧
           MimeTypes !! key = Some v.
Proof.
  unfold getMimeType.
  destruct (truthy media); cbn [negb]; [| intros [= <-]; left; reflexivity].
  destruct (truthy (get h media "mime_type")) eqn:Hmime.
  { intros [= <-]. right. left. split; [reflexivity | exact Hmime]. }
  destruct (fileInWindow && instanceofFile media).
  { intros [= <-]. right. right. left. split; reflexivity. }
  destruct (getFileExtension h media) as [ext|]; [| discriminate].
  destruct (truthy ext); cbn [negb]; [| intros [= <-]; left; reflexivity].
  destruct ext as [| | | |s|]; try discriminate. cbv zeta.
  destruct (bool_decide (toLowerCase s ∈ dom MimeTypes)) eqn:Hin;
    [| intros [= <-]; left; reflexivity].
  intros [= <-]. right. right. right.
  exists s, (toLowerCase s). split; [reflexivity |]. split; [reflexivity |].
  split; [apply toLowerCase_idempotent |].
  apply bool_decide_eq_true_1 in Hin. apply elem_of_dom in Hin as [mime Hmime'].
  rewrite (lookup_total_correct _ _ _ Hmime'). exact Hmime'.
Qed.

(** *** Properties of [getSelectedSiteId] *)

(** [getSelectedSiteId] throws exactly when the state or its [ui] branch is
    [undefined] or [null]; otherwise it returns the [selectedSiteId] field as
    it is, which is [undefined], not [null], when the field is absent. *)
Theorem getSelectedSiteId_reads_ui h state :
  (getSelectedSiteId h state = Thrown ↔
   is_nullish state = true ∨ is_nullish (get h state "ui") = true) ∧
  (is_nullish state = false →
   is_nullish (get h state "ui") = false →
   getSelectedSiteId h state
   = Returned (get h (get h state "ui") "selectedSiteId") ∧
   (own_props h (get h state "ui") !! "selectedSiteId"%string = None →
    ObjectPrototype !! "selectedSiteId"%string = None →
    getSelectedSiteId h state = Returned VUndefined)).
Proof.
  unfold getSelectedSiteId, get_strict. split.
  - destruct state; cbn [is_nullish];
      try (split; [intros _; left; reflexivity | reflexivity]);
      (destruct (get h _ "ui"); cbn [is_nullish];
       split; try discriminate; try (intros _; right; reflexivity);
       try reflexivity; intros [? | ?]; discriminate).
  - intros Hs Hui.
    assert (Hcall : match state with
                    | VUndefined | VNull => Thrown
                    | _ => Returned (get h state "ui")
                    end = Returned (get h state "ui")).
    { destruct state; try reflexivity; discriminate. }
    rewrite Hcall.
    assert (Hread : match get h state "ui" with
                    | VUndefined | VNull => Thrown
                    | _ => Returned (get h (get h state "ui") "selectedSiteId")
                    end = Returned (get h (get h state "ui") "selectedSiteId")).
    { destruct (get h state "ui"); try reflexivity; discriminate. }
    rewrite Hread. split; [reflexivity |].
    intros Hown Hproto. unfold get at 1. rewrite Hown, Hproto. reflexivity.
Qed.

(** *** Properties of [canvasToBlob] *)

Lemma string_get_lookup s i : String.get i s = list_ascii_of_string s !! i.
Proof.
  revert i. induction s as [| c s IH]; intros [| i]; cbn; try reflexivity.
  apply IH.
Qed.

Lemma length_list_ascii_of_string s :
  List.length (list_ascii_of_string s) = String.length s.
Proof. induction s as [| c s IH]; cbn; [reflexivity | rewrite IH; reflexivity]. Qed.

Lemma uint8_of_ascii c : (N_of_ascii c mod 256)%N = N_of_ascii c.
Proof. apply N.mod_small. apply N_ascii_bounded. Qed.

(** The invariant of the loop: when the index is [i], the array holds the
    codes of the characters from [i] on in place of what it held there. *)
Lemma fill_from_codes binStr fuel i arr :
  List.length arr = String.length binStr →
  (i ≤ String.length binStr)%nat →
  (String.length binStr - i ≤ fuel)%nat →
  fill_from binStr (String.length binStr) fuel i arr =
  take i arr ++ (N_of_ascii <$> drop i (list_ascii_of_string binStr)).
Proof.
  revert i arr. induction fuel as [| fuel IH]; intros i arr Hlen Hi Hfuel.
  - assert (i = String.length binStr) as -> by lia. cbn [fill_from].
    rewrite <- Hlen, firstn_all.
    rewrite drop_ge by (rewrite length_list_ascii_of_string; lia).
    cbn. rewrite app_nil_r. reflexivity.
  - cbn [fill_from]. destruct (Nat.ltb_spec i (String.length binStr)) as [Hlt | Hge].
    + assert (Hchar : ∃ c, list_ascii_of_string binStr !! i = Some c).
      { apply lookup_lt_is_Some. rewrite length_list_ascii_of_string. exact Hlt. }
      destruct Hchar as [c Hc].
      rewrite IH; [| unfold uint8_store; rewrite length_insert; exact Hlen
                   | lia | lia].
      unfold uint8_store, charCodeAt. rewrite string_get_lookup, Hc. cbn [fmap option_fmap option_map].
      rewrite uint8_of_ascii.
      rewrite (take_S_r _ i (N_of_ascii c))
        by (apply list_lookup_insert_eq; lia).
      rewrite take_insert_ge by lia.
      rewrite (drop_S _ c i Hc). rewrite fmap_cons, <- app_assoc. reflexivity.
    + assert (i = String.length binStr) as -> by lia.
      rewrite <- Hlen, firstn_all.
      rewrite drop_ge by (rewrite length_list_ascii_of_string; lia).
      cbn. rewrite app_nil_r. reflexivity.
Qed.

Lemma fill_from_whole binStr :
  fill_from binStr (String.length binStr) (String.length binStr) 0
    (replicate (String.length binStr) 0%N)
  = N_of_ascii <$> list_ascii_of_string binStr.
Proof.
  rewrite fill_from_codes; [reflexivity | apply length_replicate | lia | lia].
Qed.

(** The loop of the polyfill copies the binary string into the array: the
    array gets the length of the string and its byte at each index is the
    code of the character at that index. *)
Theorem fill_from_char_codes binStr :
  let len := String.length binStr in
  let arr := fill_from binStr len len 0 (replicate len 0%N) in
  arr = N_of_ascii <$> list_ascii_of_string binStr ∧
  List.length arr = len ∧
  ∀ i c, String.get i binStr = Some c → arr !! i = Some (N_of_ascii c).
Proof.
  cbv zeta. rewrite fill_from_whole. split; [reflexivity |]. split.
  - rewrite length_fmap. apply length_list_ascii_of_string.
  - intros i c Hc. rewrite string_get_lookup in Hc.
    rewrite list_lookup_fmap, Hc. reflexivity.
Qed.

Lemma split_on_without sep s :
  has_char sep s = false → split_on sep s = [s].
Proof.
  induction s as [| c s IH]; [reflexivity |].
  cbn [has_char split_on]. intros H. apply orb_false_iff in H as [Hc Hs].
  rewrite Hc, (IH Hs). reflexivity.
Qed.

Lemma split_on_first sep a b :
  has_char sep a = false →
  split_on sep (a +:+ String sep b) = a :: split_on sep b.
Proof.
  induction a as [| c a IH]; simpl.
  - intros _. rewrite Ascii.eqb_refl. reflexivity.
  - intros H. apply orb_false_iff in H as [Hc Ha].
    rewrite Hc, (IH Ha). reflexivity.
Qed.

(** [canvasToBlob] never replaces a [toBlob] that is there, to which it
    hands its arguments unchanged; where there is none it installs the
    polyfill, once: after a call [toBlob] is defined and later calls leave it
    as it is. *)
Theorem canvasToBlob_installs_once toBlob canvas callback type quality :
  let after := (canvasToBlob toBlob canvas callback type quality).1 in
  after ≠ None ∧
  (∀ method, toBlob = Some method → after = Some method) ∧
  (toBlob = None → after = Some PolyfillToBlob) ∧
  (toBlob = Some ExistingToBlob →
   (canvasToBlob toBlob canvas callback type quality).2
   = ExistingCalled canvas callback type quality) ∧
  (∀ canvas' callback' type' quality',
     (canvasToBlob after canvas' callback' type' quality').1 = after).
Proof.
  cbv zeta. unfold canvasToBlob. cbn [fst snd].
  destruct toBlob as [[]|]; repeat split; try discriminate; try reflexivity; congruence.
Qed.

(** Where no other [toBlob] is there, a canvas whose data URL is a header
    and a base64 payload separated by a comma gets its callback called with
    a blob made of one part, the bytes [atob] decodes from the payload, in
    order, and of the requested type, or of [image/png] when the type is
    falsy. *)
Theorem canvasToBlob_polyfill_blob toBlob canvas callback type quality
    header payload binStr :
  toBlob ≠ Some ExistingToBlob →
  toDataURL canvas type quality = Some (header +:+ String "," payload) →
  has_char "," header = false →
  has_char "," payload = false →
  atob payload = Some binStr →
  canvasToBlob toBlob canvas callback type quality =
  (Some PolyfillToBlob,
   CallbackCalled callback
     (BlobInit [N_of_ascii <$> list_ascii_of_string binStr]
               (or_else type (VStr "image/png")))).
Proof.
  intros Hnot Hurl Hheader Hpayload Hatob.
  assert (Hinstall : match toBlob with
                     | None => Some PolyfillToBlob
                     | Some _ => toBlob
                     end = Some PolyfillToBlob).
  { destruct toBlob as [[]|]; [contradiction | reflexivity | reflexivity]. }
  unfold canvasToBlob. cbv zeta. rewrite Hinstall.
  unfold toBlob_polyfill. rewrite Hurl.
  rewrite (split_on_first _ _ _ Hheader), (split_on_without _ _ Hpayload).
  cbn [item lookup list_lookup to_property_key]. rewrite Hatob. cbv zeta.
  rewrite fill_from_whole. reflexivity.
Qed.

(** A data URL without a comma has no second field: the polyfill then hands
    the string [undefined] to [atob], and throws when [atob] refuses it. *)
Theorem canvasToBlob_no_payload toBlob canvas callback type quality dataURL :
  toBlob ≠ Some ExistingToBlob →
  toDataURL canvas type quality = Some dataURL →
  has_char "," dataURL = false →
  (canvasToBlob toBlob canvas callback type quality).2 =
  match atob "undefined" with
  | None => Raised
  | Some binStr =>
      CallbackCalled callback
        (BlobInit [N_of_ascii <$> list_ascii_of_string binStr]
                  (or_else type (VStr "image/png")))
  end.
Proof.
  intros Hnot Hurl Hnone.
  assert (Hinstall : match toBlob with
                     | None => Some PolyfillToBlob
                     | Some _ => toBlob
                     end = Some PolyfillToBlob).
  { destruct toBlob as [[]|]; [contradiction | reflexivity | reflexivity]. }
  unfold canvasToBlob. cbv zeta. rewrite Hinstall. cbn [snd].
  unfold toBlob_polyfill. rewrite Hurl, (split_on_without _ _ Hnone).
  cbn [item lookup list_lookup to_property_key].
  destruct (atob "undefined") as [binStr|]; [| reflexivity]. cbv zeta.
  rewrite fill_from_whole. reflexivity.
Qed.

End Program.


(** ** A concrete environment

    The theorems above hold for every choice of the imported functions. The
    instances below pick one, to run the functions on concrete inputs. *)

(** A few of the properties of [Object.prototype]; their values are
    functions, kept as references. *)
Definition sample_prototype : obj :=
  {[ "constructor" := VObj 901; "toString" := VObj 902;
     "hasOwnProperty" := VObj 903; "valueOf" := VObj 904 ]}.

(** *** Sites: one raw site, known by the ID 7 and the slug [example] *)

Definition sample_state := list (Z * string * loc).

Definition sample_getRawSite (state : sample_state) (k : value) : value :=
  match k with
  | VNum n =>
      match List.find (λ e, e.1.1 =? n) state with
      | Some e => VObj e.2
      | None => VNull
      end
  | _ => VNull
  end.

Definition sample_getSiteBySlug (state : sample_state) (k : value) : value :=
  match k with
  | VStr s =>
      match List.find (λ e, String.eqb e.1.2 s) state with
      | Some e => VObj e.2
      | None => VNull
      end
  | _ => VNull
  end.

Definition sample_siteAttributes (state : sample_state) (id : value) : obj :=
  if decide (id = VNum 7) then {[ "name" := VStr "Example Computed" ]} else ∅.

Definition sample_jetpackAttributes (state : sample_state) (id : value) : obj :=
  ∅.

Definition sample_getSite : sample_state → value → world → result * world :=
  getSite sample_prototype sample_state sample_getRawSite sample_getSiteBySlug
          sample_siteAttributes sample_jetpackAttributes.

Definition example_raw_site : obj :=
  {[ "ID" := VNum 7; "slug" := VStr "example"; "name" := VStr "Example" ]}.

Definition example_state : sample_state := [(7, "example"%string, 1%positive)].

(** The store before any lookup: the raw site at location 1, empty cache. *)
Definition example_world : world := World {[ 1%positive := example_raw_site ]} ∅.

(** The store after a first lookup of the site. *)
Definition example_world_cached : world :=
  (sample_getSite example_state (VNum 7) example_world).2.

(** *** Media: sample library functions *)

(** [path.extname] on POSIX paths: the part of the last path component from
    its last dot on, unless that dot starts the component or the component
    is [..]. The component is handled reversed. *)
Fixpoint drop_slashes (l : list ascii) : list ascii :=
  match l with
  | c :: t => if Ascii.eqb c "/" then drop_slashes t else l
  | [] => []
  end.

Fixpoint upto_slash (l : list ascii) : list ascii :=
  match l with
  | c :: t => if Ascii.eqb c "/" then [] else c :: upto_slash t
  | [] => []
  end.

Fixpoint split_at_dot (l : list ascii) : option (list ascii * list ascii) :=
  match l with
  | c :: t =>
      if Ascii.eqb c "." then Some ([c], t)
      else
        match split_at_dot t with
        | Some (ext, rest) => Some (c :: ext, rest)
        | None => None
        end
  | [] => None
  end.

Definition posix_extname (s : string) : string :=
  let base := upto_slash (drop_slashes (rev (list_ascii_of_string s))) in
  match split_at_dot base with
  | None => ""
  | Some (ext, rest) =>
      match rest with
      | [] => ""
      | _ =>
          if bool_decide (base = ["."; "."]%char) then ""
          else string_of_list_ascii (rev ext)
      end
  end.

Definition sample_extname (v : value) : result :=
  match v with
  | VStr s => Returned (VStr (posix_extname s))
  | _ => Thrown
  end.

(** The text before the first occurrence of a separator. *)
Definition before (sep s : string) : string :=
  match String.index 0 sep s with
  | Some i => String.substring 0 i s
  | None => s
  end.

(** [urlLib.parse(s).pathname] for the URLs of the examples: what follows
    the host, without query and fragment; [null] when there is no path. A
    value that is not a string is refused. *)
Definition url_pathname (s : string) : value :=
  let s := before "?" (before "#" s) in
  let path :=
    match String.index 0 "://" s with
    | Some i =>
        let rest := String.substring (i + 3) (String.length s - (i + 3)) s in
        match String.index 0 "/" rest with
        | Some j => String.substring j (String.length rest - j) rest
        | None => "/"
        end
    | None => s
    end in
  if String.eqb path "" then VNull else VStr path.

Definition sample_urlParsePathname (v : value) : result :=
  match v with
  | VStr s => Returned (url_pathname s)
  | _ => Thrown
  end.

(** [isUri] gives its argument back when it has a scheme. *)
Definition sample_isUri (v : value) : value :=
  match v with
  | VStr s =>
      match String.index 0 "://" s with
      | Some _ => v
      | None => VUndefined
      end
  | _ => VUndefined
  end.

(** [resize] appends the requested width or size to the URL. *)
Definition sample_resize (u : value) (options : obj) : result :=
  match u, options !! "w", options !! "resize" with
  | VStr s, Some w, _ => Returned (VStr (s +:+ "?w=" +:+ to_property_key w))
  | VStr s, None, Some r =>
      Returned (VStr (s +:+ "?resize=" +:+ to_property_key r))
  | _, _, _ => Returned u
  end.

Definition sample_photon (u : value) (options : option obj) : result :=
  match u with
  | VStr s => Returned (VStr ("https://i0.wp.com/" +:+ s))
  | _ => Thrown
  end.

(** Some entries of the kind [MimeTypes] holds. *)
Definition sample_MimeTypes : obj :=
  {[ "gif" := VStr "image/gif"; "jpg" := VStr "image/jpeg";
     "jpeg" := VStr "image/jpeg"; "png" := VStr "image/png" ]}.

(** The store of the media examples. Location 30 is the one [File]. *)
Definition sample_instanceofFile (v : value) : bool :=
  bool_decide (v = VObj 30).

Definition media_store : heap :=
  list_to_map
    [ (10%positive,
       ({[ "URL" := VStr "https://example.com/img.JPG";
           "thumbnails" := VObj 11 ]} : obj));
      (11%positive,
       {[ "thumbnail" := VStr "https://example.com/img-150x150.JPG";
          "medium" := VStr "https://example.com/img-300x200.JPG" ]});
      (12%positive,
       {[ "size" := VStr "medium"; "maxWidth" := VNum 450;
          "resize" := VStr "100,100" ]});
      (13%positive,
       {[ "size" := VStr "huge"; "maxWidth" := VNum 450;
          "resize" := VStr "100,100" ]});
      (14%positive, {[ "resize" := VStr "100,100" ]});
      (15%positive,
       {[ "transient" := VBool true; "URL" := VStr "blob:img";
          "thumbnails" := VObj 11 ]});
      (16%positive, {[ "transient" := VBool true ]});
      (17%positive, {[ "extension" := VStr "GIF" ]});
      (18%positive,
       {[ "mime_type" := VStr "text/plain"; "extension" := VStr "gif" ]});
      (19%positive, {[ "mime_type" := VStr "image/gif" ]});
      (20%positive, ∅);
      (21%positive, {[ "URL" := VStr "https://example.com/a/doc.PDF?x=1" ]});
      (22%positive, {[ "thumbnails" := VObj 11 ]});
      (23%positive, {[ "size" := VStr "toString"; "maxWidth" := VNum 450 ]});
      (24%positive,
       {[ "URL" := VStr "https://example.com/img.JPG";
          "thumbnails" := VStr "none" ]});
      (30%positive,
       {[ "name" := VStr "photo.PNG"; "type" := VStr "image/png" ]}) ].

Definition sample_url : heap → value → value → result :=
  url sample_prototype sample_resize.

Definition sample_url_photon : heap → value → value → result :=
  url_photon sample_prototype sample_resize sample_photon.

Definition sample_getFileExtension : heap → value → result :=
  getFileExtension sample_prototype sample_isUri sample_urlParsePathname
                   sample_extname true sample_instanceofFile.

Definition sample_getMimeType : heap → value → result :=
  getMimeType sample_prototype sample_MimeTypes sample_isUri
              sample_urlParsePathname sample_extname true sample_instanceofFile.

(** ** The properties on the concrete environment *)

Lemma wf_world_no_cache (h : heap) : wf_world (World h ∅).
Proof. intros r v Hv. cbn in Hv. rewrite lookup_empty in Hv. discriminate. Qed.

Lemma example_world_cached_wf : wf_world example_world_cached.
Proof.
  exact (getSite_wf sample_prototype sample_state
           sample_getRawSite sample_getSiteBySlug
           sample_siteAttributes sample_jetpackAttributes
           example_state (VNum 7) example_world (wf_world_no_cache _)).
Qed.

(** The scenario of the site with ID 7 and slug [example]: both keys give
    the same reference, to an object whose [name] is the computed one; an
    unknown ID gives [null]. *)
Example getSite_scenario :
  sample_getSite example_state (VNum 7) example_world
  = (Returned (VObj 2), example_world_cached) ∧
  sample_getSite example_state (VStr "example") example_world_cached
  = (Returned (VObj 2), example_world_cached) ∧
  objects example_world_cached !! 2%positive
  = Some {[ "ID" := VNum 7; "slug" := VStr "example";
            "name" := VStr "Example Computed" ]} ∧
  sample_getSite example_state (VNum 999) example_world_cached
  = (Returned VNull, example_world_cached).
Proof. repeat split. Qed.

(** The first lookup of site 7 builds the merged object. *)
Lemma getSite_merges_attributes_witness :
  let id := get sample_prototype (objects example_world) (VObj 1) "ID" in
  ∃ l w' site,
    sample_getSite example_state (VNum 7) example_world
    = (Returned (VObj l), w') ∧
    (l ∉ dom (objects example_world)) ∧
    objects w' !! l = Some site ∧
    ∀ key, site !! key =
           match sample_jetpackAttributes example_state id !! key with
           | Some v => Some v
           | None =>
               match sample_siteAttributes example_state id !! key with
               | Some v => Some v
               | None => example_raw_site !! key
               end
           end.
Proof.
  apply (getSite_merges_attributes sample_prototype sample_state
           sample_getRawSite sample_getSiteBySlug
           sample_siteAttributes sample_jetpackAttributes
           example_state (VNum 7) example_world 1 example_raw_site);
    reflexivity.
Defined.

(** Two lookups of the slug [example], starting with an empty cache. *)
Lemma getSite_reference_stable_witness :
  ∃ l, (sample_getSite example_state (VStr "example") example_world).1
       = Returned (VObj l) ∧
       sample_getSite example_state (VStr "example")
         (sample_getSite example_state (VStr "example") example_world).2
       = (Returned (VObj l),
          (sample_getSite example_state (VStr "example") example_world).2).
Proof.
  apply (getSite_reference_stable sample_prototype sample_state
           sample_getRawSite sample_getSiteBySlug
           sample_siteAttributes sample_jetpackAttributes
           example_state (VStr "example") example_world 1).
  - apply wf_world_no_cache.
  - reflexivity.
Defined.

(** A slug lookup that would send every key to the raw site. *)
Definition every_slug (state : sample_state) (k : value) : value := VObj 1.


(** The unknown ID 999, looked up when the cache has an entry. *)
Lemma getSite_unresolved_keeps_cache_witness :
  (sample_getSite example_state (VNum 999) example_world_cached).1
  = Returned VNull ∧
  getSiteCache (sample_getSite example_state (VNum 999) example_world_cached).2
  = getSiteCache example_world_cached ∧
  objects (sample_getSite example_state (VNum 999) example_world_cached).2
  = objects example_world_cached.
Proof.
  apply (getSite_unresolved_keeps_cache sample_prototype sample_state
           sample_getRawSite sample_getSiteBySlug
           sample_siteAttributes sample_jetpackAttributes
           example_state (VNum 999) example_world_cached);
    reflexivity.
Defined.

(** Site 7 is cached as object 2; after the clear it is built again. *)
Lemma clearCache_forces_recomputation_witness :
  (clearCache example_world_cached).1 = Returned VUndefined ∧
  getSiteCache (clearCache example_world_cached).2 = ∅ ∧
  ∃ l w',
    sample_getSite example_state (VNum 7) (clearCache example_world_cached).2
    = (Returned (VObj l), w') ∧
    VObj l ≠ VObj 2 ∧
    (l ∉ dom (objects example_world_cached)) ∧
    objects w' !! l
    = Some (computed_fields sample_prototype sample_state
              sample_siteAttributes sample_jetpackAttributes
              example_state (objects example_world_cached) (VObj 1)) ∧
    getSiteCache w' !! 1%positive = Some (VObj l).
Proof.
  apply (clearCache_forces_recomputation sample_prototype sample_state
           sample_getRawSite sample_getSiteBySlug
           sample_siteAttributes sample_jetpackAttributes
           example_state (VNum 7) example_world_cached 1 (VObj 2)).
  - exact example_world_cached_wf.
  - reflexivity.
  - reflexivity.
Defined.

(** The ID 7 and the slug [example] name the raw site at location 1. *)
Lemma getSite_id_and_slug_share_entry_witness :
  sample_getSite example_state (VNum 7) example_world
  = sample_getSite example_state (VStr "example") example_world ∧
  (∃ l, (sample_getSite example_state (VNum 7) example_world).1
        = Returned (VObj l) ∧
        sample_getSite example_state (VStr "example")
          (sample_getSite example_state (VNum 7) example_world).2
        = (Returned (VObj l),
           (sample_getSite example_state (VNum 7) example_world).2)) ∧
  (∃ l, (sample_getSite example_state (VStr "example") example_world).1
        = Returned (VObj l) ∧
        sample_getSite example_state (VNum 7)
          (sample_getSite example_state (VStr "example") example_world).2
        = (Returned (VObj l),
           (sample_getSite example_state (VStr "example") example_world).2)).
Proof.
  apply (getSite_id_and_slug_share_entry sample_prototype sample_state
           sample_getRawSite sample_getSiteBySlug
           sample_siteAttributes sample_jetpackAttributes
           example_state (VNum 7) (VStr "example") example_world 1).
  - apply wf_world_no_cache.
  - reflexivity.
  - reflexivity.
Defined.

(** The [in] test also sees what the thumbnails object inherits, and it
    throws when [media.thumbnails] is a string. *)
Example url_in_operator :
  sample_url media_store (VObj 10) (VObj 23) = Returned (VObj 902) ∧
  sample_url media_store (VObj 24) (VObj 12) = Thrown.
Proof. split; reflexivity. Qed.

(** Transient media: the URL comes back whatever the options say, and a
    transient media without URL gives [undefined]. *)
Lemma url_transient_witness :
  (sample_url media_store (VObj 15) (VObj 12) = Returned (VStr "blob:img") ∧
   sample_url_photon media_store (VObj 15) (VObj 12)
   = Returned (VStr "blob:img")) ∧
  (sample_url media_store (VObj 16) (VObj 12) = Returned VUndefined ∧
   sample_url_photon media_store (VObj 16) (VObj 12) = Returned VUndefined).
Proof.
  split.
  - destruct (url_transient sample_prototype sample_resize sample_photon
                media_store (VObj 15) (VObj 12) eq_refl eq_refl)
      as (H1 & H2 & _).
    split; [exact H1 | exact H2].
  - destruct (url_transient sample_prototype sample_resize sample_photon
                media_store (VObj 16) (VObj 12) eq_refl eq_refl)
      as (_ & _ & H3).
    exact (H3 eq_refl).
Defined.

(** C8, as stated, fails: the metadata [{ extension: "GIF" }] gets ["GIF"]
    back, which is not in lowercase, and the empty metadata [{}], from which
    no extension can be derived, gets the empty string, not [undefined]. *)
Lemma getFileExtension_not_lowercased :
  sample_getFileExtension media_store (VObj 17) = Returned (VStr "GIF") ∧
  toLowerCase "GIF" = "gif"%string ∧
  VStr "GIF" ≠ VStr (toLowerCase "GIF") ∧
  media_store !! 20%positive = Some ∅ ∧
  sample_getFileExtension media_store (VObj 20) = Returned (VStr "") ∧
  Returned (VStr "") ≠ Returned VUndefined.
Proof.
  split; [reflexivity |]. split; [reflexivity |].
  split; [discriminate |]. split; [reflexivity |].
  split; [reflexivity | discriminate].
Qed.

(** One input for each way [getFileExtension] finds the extension. *)
Lemma getFileExtension_keeps_case_witness :
  (sample_getFileExtension media_store VNull = Returned VUndefined) ∧
  sample_getFileExtension media_store (VStr "example.GIF")
  = Returned (VStr "GIF") ∧
  sample_getFileExtension media_store (VStr "https://wordpress.com/example.gif")
  = Returned (VStr "gif") ∧
  sample_getFileExtension media_store (VObj 30) = Returned (VStr "PNG") ∧
  sample_getFileExtension media_store (VObj 17) = Returned (VStr "GIF") ∧
  sample_getFileExtension media_store (VObj 21) = Returned (VStr "PDF") ∧
  sample_getFileExtension media_store (VStr "README") = Returned (VStr "").
Proof.
  pose proof (getFileExtension_keeps_case sample_prototype sample_isUri
                sample_urlParsePathname sample_extname true
                sample_instanceofFile media_store) as Hext.
  split.
  { destruct (Hext VNull) as [[_ Hfalsy] _]. exact (Hfalsy eq_refl). }
  split.
  { destruct (Hext (VStr "example.GIF")) as [_ Hcases].
    destruct (Hcases eq_refl) as (Hpath & _).
    exact (Hpath ".GIF"%string eq_refl eq_refl eq_refl). }
  split.
  { destruct (Hext (VStr "https://wordpress.com/example.gif")) as [_ Hcases].
    destruct (Hcases eq_refl) as (_ & Huri & _).
    exact (Huri (VStr "/example.gif") ".gif"%string
             eq_refl eq_refl eq_refl eq_refl). }
  split.
  { destruct (Hext (VObj 30)) as [_ Hcases].
    destruct (Hcases eq_refl) as (_ & _ & Hfile & _).
    exact (Hfile ".PNG"%string eq_refl eq_refl eq_refl). }
  split.
  { destruct (Hext (VObj 17)) as [_ Hcases].
    destruct (Hcases eq_refl) as (_ & _ & _ & Hfield & _).
    exact (Hfield eq_refl eq_refl eq_refl). }
  split.
  { destruct (Hext (VObj 21)) as [_ Hcases].
    destruct (Hcases eq_refl) as (_ & _ & _ & _ & Hmeta).
    exact (Hmeta (VStr "/a/doc.PDF") ".PDF"%string
             eq_refl eq_refl eq_refl eq_refl eq_refl). }
  destruct (Hext (VStr "README")) as [_ Hcases].
  destruct (Hcases eq_refl) as (Hpath & _).
  exact (Hpath ""%string eq_refl eq_refl eq_refl).
Defined.

(** C9, as stated, fails: [{ mime_type: "text/plain", extension: "gif" }]
    has an extension that is in the table, yet gets its own [mime_type], not
    the entry of the table; and [{ mime_type: "image/gif" }], from which no
    extension is derived, gets ["image/gif"], not [undefined]. *)
Lemma getMimeType_prefers_mime_type :
  sample_getFileExtension media_store (VObj 18) = Returned (VStr "gif") ∧
  sample_MimeTypes !! "gif"%string = Some (VStr "image/gif") ∧
  sample_getMimeType media_store (VObj 18) = Returned (VStr "text/plain") ∧
  Returned (VStr "text/plain") ≠ Returned (VStr "image/gif") ∧
  sample_getFileExtension media_store (VObj 19) = Returned (VStr "") ∧
  sample_getMimeType media_store (VObj 19) = Returned (VStr "image/gif") ∧
  Returned (VStr "image/gif") ≠ Returned VUndefined.
Proof.
  split; [reflexivity |]. split; [reflexivity |]. split; [reflexivity |].
  split; [discriminate |]. split; [reflexivity |].
  split; [reflexivity | discriminate].
Qed.

(** One input for each way [getMimeType] answers. *)
Lemma getMimeType_lookup_witness :
  sample_getMimeType media_store VNull = Returned VUndefined ∧
  sample_getMimeType media_store (VObj 18) = Returned (VStr "text/plain") ∧
  sample_getMimeType media_store (VObj 30) = Returned (VStr "image/png") ∧
  sample_getMimeType media_store (VObj 20) = Returned VUndefined ∧
  sample_getMimeType media_store (VObj 21) = Returned VUndefined ∧
  sample_getMimeType media_store (VStr "example.GIF")
  = Returned (VStr "image/gif").
Proof.
  pose proof (getMimeType_lookup sample_prototype sample_MimeTypes sample_isUri
                sample_urlParsePathname sample_extname true
                sample_instanceofFile media_store) as Hmime.
  split.
  { destruct (Hmime VNull) as (Hnone & _). exact (Hnone eq_refl). }
  split.
  { destruct (Hmime (VObj 18)) as (_ & Hfield & _).
    exact (Hfield eq_refl eq_refl). }
  split.
  { destruct (Hmime (VObj 30)) as (_ & _ & Hfile & _).
    exact (Hfile eq_refl eq_refl eq_refl). }
  split.
  { destruct (Hmime (VObj 20)) as (_ & _ & _ & Htable).
    destruct (Htable eq_refl eq_refl eq_refl) as (Hfalsy & _).
    exact (Hfalsy (VStr "") eq_refl eq_refl). }
  split.
  { destruct (Hmime (VObj 21)) as (_ & _ & _ & Htable).
    destruct (Htable eq_refl eq_refl eq_refl) as (_ & Hunknown & _).
    apply (Hunknown "PDF"%string); [reflexivity | discriminate | reflexivity]. }
  destruct (Hmime (VStr "example.GIF")) as (_ & _ & _ & Htable).
  destruct (Htable eq_refl eq_refl eq_refl) as (_ & _ & Hknown).
  apply (Hknown "GIF"%string (VStr "image/gif"));
    [reflexivity | discriminate | reflexivity].
Defined.

(** ** More of the concrete environment *)

(** Attributes that depend on the state: the number of sites it lists. *)
Definition counting_attributes (state : sample_state) (id : value) : obj :=
  {[ "sites" := VNum (Z.of_nat (List.length state)) ]}.

Definition counting_getSite : sample_state → value → world → result * world :=
  getSite sample_prototype sample_state sample_getRawSite sample_getSiteBySlug
          counting_attributes sample_jetpackAttributes.

(** A later state: the same raw site object, and one more site. *)
Definition later_state : sample_state :=
  example_state ++ [(8, "other"%string, 3%positive)].

(** The store of the later state: both raw sites, empty cache. *)
Definition two_sites_world : world :=
  World {[ 1%positive := example_raw_site;
           3%positive := ({[ "ID" := VNum 8; "slug" := VStr "other" ]} : obj) ]}
        ∅.

(** A lookup by ID that answers with a string instead of a site. *)
Definition broken_getRawSite (state : sample_state) (k : value) : value :=
  VStr "site".

(** The media store with two more option objects and a metadata whose
    extension is a number. *)
Definition extras_store : heap :=
  <[40%positive :=
      ({[ "photon" := VBool true; "size" := VStr "medium";
          "maxWidth" := VNum 450 ]} : obj)]>
  (<[41%positive := ({[ "extension" := VNum 5 ]} : obj)]> media_store).

(** A state tree with a selected site, and one without [ui]. *)
Definition ui_store : heap :=
  list_to_map
    [ (50%positive, ({[ "ui" := VObj 51 ]} : obj));
      (51%positive, {[ "selectedSiteId" := VNum 7 ]});
      (52%positive, {[ "ui" := VObj 53 ]});
      (53%positive, ∅);
      (54%positive, {[ "sites" := VObj 53 ]}) ].

(** [atob] on a string without white space: padding is dropped, a length
    of 1 modulo 4 and characters outside the alphabet are refused, and every
    four characters give three bytes. *)
Definition b64_value (c : ascii) : option N :=
  let n := N_of_ascii c in
  if ((65 <=? n) && (n <=? 90))%N then Some (n - 65)%N
  else if ((97 <=? n) && (n <=? 122))%N then Some (n - 71)%N
  else if ((48 <=? n) && (n <=? 57))%N then Some (n + 4)%N
  else if (n =? 43)%N then Some 62%N
  else if (n =? 47)%N then Some 63%N
  else None.

Fixpoint bytes_of_sextets (l : list N) : list N :=
  match l with
  | a :: b :: c :: d :: t =>
      let n := (((a * 64 + b) * 64 + c) * 64 + d)%N in
      (n / 65536)%N :: ((n / 256) mod 256)%N :: (n mod 256)%N
        :: bytes_of_sextets t
  | [a; b; c] =>
      let n := ((a * 64 + b) * 64 + c)%N in
      [(n / 1024)%N; ((n / 4) mod 256)%N]
  | [a; b] => [((a * 64 + b) / 16)%N]
  | _ => []
  end.

Definition strip_padding (l : list ascii) : list ascii :=
  if (List.length l mod 4 =? 0)%nat then
    match rev l with
    | c1 :: c2 :: t =>
        if Ascii.eqb c1 "=" then
          if Ascii.eqb c2 "=" then rev t else rev (c2 :: t)
        else l
    | _ => l
    end
  else l.

Definition sample_atob (s : string) : option string :=
  let l := strip_padding (list_ascii_of_string s) in
  if (List.length l mod 4 =? 1)%nat then None
  else
    match mapM b64_value l with
    | Some sextets =>
        Some (string_of_list_ascii (ascii_of_N <$> bytes_of_sextets sextets))
    | None => None
    end.

(** Canvases are numbered: canvas 1 holds a two-byte image, the data URL of
    canvas 2 has lost its payload, any other canvas is tainted. *)
Definition sample_toDataURL (canvas : nat) (type quality : value)
  : option string :=
  match canvas with
  | 1%nat => Some "data:image/png;base64,aGk="%string
  | 2%nat => Some "data:"%string
  | _ => None
  end.

Definition sample_canvasToBlob
  : option toBlob_method → nat → nat → value → value →
    option toBlob_method * toBlob_outcome nat nat :=
  canvasToBlob nat nat sample_toDataURL sample_atob.

(** ** The further properties on the concrete environment *)

(** The world after a lookup, a clear and another lookup. *)
Lemma reachable_cache_holds_objects_witness :
  ∃ l, VObj 3 = VObj l ∧
       l ∈ dom (objects
                  (sample_getSite example_state (VStr "example")
                     (clearCache example_world_cached).2).2).
Proof.
  apply (reachable_cache_holds_objects sample_prototype sample_state
           sample_getRawSite sample_getSiteBySlug
           sample_siteAttributes sample_jetpackAttributes
           (sample_getSite example_state (VStr "example")
              (clearCache example_world_cached).2).2 1 (VObj 3)).
  - apply reachable_getSite. apply reachable_clearCache.
    apply (reachable_getSite sample_prototype sample_state
             sample_getRawSite sample_getSiteBySlug
             sample_siteAttributes sample_jetpackAttributes
             example_state (VNum 7) example_world).
    apply reachable_start.
  - reflexivity.
Defined.

(** Two raw sites, at locations 1 and 3, looked up one after the other. *)
Lemma reachable_sites_distinct_witness : VObj 4 ≠ VObj 5.
Proof.
  apply (reachable_sites_distinct sample_prototype sample_state
           sample_getRawSite sample_getSiteBySlug
           sample_siteAttributes sample_jetpackAttributes
           (sample_getSite later_state (VNum 8)
              (sample_getSite later_state (VNum 7) two_sites_world).2).2
           1 3 (VObj 4) (VObj 5)).
  - apply reachable_getSite. apply reachable_getSite. apply reachable_start.
  - discriminate.
  - reflexivity.
  - reflexivity.
Defined.

(** The raw site is still what it was after the lookup that caches it. *)
Lemma getSite_keeps_objects_witness :
  objects (sample_getSite example_state (VNum 7) example_world).2 !! 1%positive
  = Some example_raw_site.
Proof.
  apply (getSite_keeps_objects sample_prototype sample_state
           sample_getRawSite sample_getSiteBySlug
           sample_siteAttributes sample_jetpackAttributes
           example_state (VNum 7) example_world 1 example_raw_site).
  reflexivity.
Defined.


(** Site 7 is looked up when the state lists one site and again when it
    lists two: the second lookup returns the object of the first. *)
Lemma getSite_ignores_state_change_witness :
  ∃ l, (counting_getSite example_state (VNum 7) example_world).1
       = Returned (VObj l) ∧
       counting_getSite later_state (VStr "example")
         (counting_getSite example_state (VNum 7) example_world).2
       = (Returned (VObj l),
          (counting_getSite example_state (VNum 7) example_world).2).
Proof.
  apply (getSite_ignores_state_change sample_prototype sample_state
           sample_getRawSite sample_getSiteBySlug
           counting_attributes sample_jetpackAttributes
           example_state later_state (VNum 7) (VStr "example")
           example_world 1).
  - apply wf_world_no_cache.
  - reflexivity.
  - reflexivity.
Defined.

(** The object returned under the later state still counts one site. *)
Example getSite_stale_attributes :
  counting_getSite later_state (VNum 7)
    (counting_getSite example_state (VNum 7) example_world).2
  = (Returned (VObj 2), (counting_getSite example_state (VNum 7) example_world).2) ∧
  objects (counting_getSite example_state (VNum 7) example_world).2
  !! 2%positive
  = Some {[ "ID" := VNum 7; "slug" := VStr "example";
            "name" := VStr "Example"; "sites" := VNum 1 ]} ∧
  counting_attributes later_state (VNum 7) = {[ "sites" := VNum 2 ]}.
Proof. repeat split. Qed.

(** Site 7 is looked up, then site 8, then site 7 again. *)
Lemma getSite_no_eviction_witness :
  ∃ l, (sample_getSite later_state (VNum 7) two_sites_world).1
       = Returned (VObj l) ∧
       let w2 :=
         (sample_getSite later_state (VNum 8)
            (sample_getSite later_state (VNum 7) two_sites_world).2).2 in
       sample_getSite later_state (VNum 7) w2 = (Returned (VObj l), w2).
Proof.
  apply (getSite_no_eviction sample_prototype sample_state
           sample_getRawSite sample_getSiteBySlug
           sample_siteAttributes sample_jetpackAttributes
           later_state (VNum 7) two_sites_world 1 later_state (VNum 8)).
  - apply wf_world_no_cache.
  - reflexivity.
Defined.

Lemma getSite_throws_on_primitive_witness :
  getSite sample_prototype sample_state broken_getRawSite sample_getSiteBySlug
          sample_siteAttributes sample_jetpackAttributes
          example_state (VNum 7) example_world
  = (Thrown, example_world).
Proof.
  apply (getSite_throws_on_primitive sample_prototype sample_state
           broken_getRawSite sample_getSiteBySlug
           sample_siteAttributes sample_jetpackAttributes
           example_state (VNum 7) example_world (VStr "site")).
  - reflexivity.
  - reflexivity.
  - discriminate.
Defined.

Lemma getSite_outcome_witness :
  2%positive ∈ dom (objects (sample_getSite example_state (VNum 7) example_world).2) ∧
  ∃ r, resolves_to sample_state sample_getRawSite sample_getSiteBySlug
                   example_state (VNum 7) r.
Proof.
  exact (getSite_outcome sample_prototype sample_state
           sample_getRawSite sample_getSiteBySlug
           sample_siteAttributes sample_jetpackAttributes
           example_state (VNum 7) example_world
           (wf_world_no_cache _)).
Defined.

(** With [photon] set, the thumbnail named [medium] is not used, and media
    whose thumbnails are a string does not make the call throw. *)
Lemma url_photon_bypasses_thumbnails_witness :
  sample_url_photon extras_store (VObj 10) (VObj 40)
  = sample_photon (VStr "https://example.com/img.JPG")
                  (Some {[ "width" := VNum 450 ]}) ∧
  sample_url_photon extras_store (VObj 24) (VObj 40)
  = sample_photon (VStr "https://example.com/img.JPG")
                  (Some {[ "width" := VNum 450 ]}).
Proof.
  split.
  - exact (url_photon_bypasses_thumbnails sample_prototype sample_resize
             sample_photon extras_store (VObj 10) (VObj 40)
             eq_refl eq_refl eq_refl eq_refl).
  - exact (url_photon_bypasses_thumbnails sample_prototype sample_resize
             sample_photon extras_store (VObj 24) (VObj 40)
             eq_refl eq_refl eq_refl eq_refl).
Defined.

Lemma url_without_options_witness :
  sample_url media_store (VObj 10) VUndefined
  = Returned (VStr "https://example.com/img.JPG") ∧
  sample_url media_store (VObj 10) VNull
  = Returned (VStr "https://example.com/img.JPG").
Proof.
  split.
  - exact (url_without_options sample_prototype sample_resize
             media_store (VObj 10) VUndefined
             eq_refl eq_refl eq_refl eq_refl eq_refl eq_refl eq_refl eq_refl).
  - exact (url_without_options sample_prototype sample_resize
             media_store (VObj 10) VNull
             eq_refl eq_refl eq_refl eq_refl eq_refl eq_refl eq_refl eq_refl).
Defined.

(** Thumbnails that are a string make [url] throw. *)
Lemma url_throws_witness :
  sample_url media_store (VObj 24) (VObj 12) = Thrown.
Proof.
  pose proof (url_throws sample_prototype sample_resize
                media_store (VObj 24) (VObj 12)) as Hthrows.
  cbv zeta in Hthrows. apply Hthrows.
  split; [reflexivity |]. split; [reflexivity |]. split; [reflexivity |].
  left. split; [reflexivity | discriminate].
Defined.

(** A numeric [extension] field comes back as the number it is, and makes
    [getMimeType] throw. *)
Lemma getFileExtension_result_type_witness :
  VNum 5 = VUndefined ∨ is_string (VNum 5) = true ∨
  (is_string (VObj 41) = false ∧
   VNum 5 = get sample_prototype extras_store (VObj 41) "extension" ∧
   truthy (VNum 5) = true).
Proof.
  apply (getFileExtension_result_type sample_prototype sample_isUri
           sample_urlParsePathname sample_extname true sample_instanceofFile
           extras_store (VObj 41) (VNum 5)).
  reflexivity.
Defined.

Lemma getMimeType_throws_witness :
  sample_getMimeType extras_store (VObj 41) = Thrown.
Proof.
  apply (getMimeType_throws sample_prototype sample_MimeTypes sample_isUri
           sample_urlParsePathname sample_extname true sample_instanceofFile
           extras_store (VObj 41)).
  split; [reflexivity |]. split; [reflexivity |]. split; [reflexivity |].
  right. split; [reflexivity |]. split; reflexivity.
Defined.

Lemma getMimeType_range_witness :
  VStr "image/gif" = VUndefined ∨
  (VStr "image/gif" = get sample_prototype media_store (VStr "example.GIF") "mime_type" ∧
   truthy (VStr "image/gif") = true) ∨
  (true && sample_instanceofFile (VStr "example.GIF") = true ∧
   VStr "image/gif" = get sample_prototype media_store (VStr "example.GIF") "type") ∨
  ∃ s key, sample_getFileExtension media_store (VStr "example.GIF")
           = Returned (VStr s) ∧
           key = toLowerCase s ∧
           toLowerCase key = key ∧
           sample_MimeTypes !! key = Some (VStr "image/gif").
Proof.
  apply (getMimeType_range sample_prototype sample_MimeTypes sample_isUri
           sample_urlParsePathname sample_extname true sample_instanceofFile
           media_store (VStr "example.GIF") (VStr "image/gif")).
  reflexivity.
Defined.

(** A state with a selected site, one whose [ui] has no selection, and one
    without [ui]. *)
Lemma getSelectedSiteId_reads_ui_witness :
  getSelectedSiteId sample_prototype ui_store (VObj 50) = Returned (VNum 7) ∧
  getSelectedSiteId sample_prototype ui_store (VObj 52) = Returned VUndefined ∧
  getSelectedSiteId sample_prototype ui_store (VObj 54) = Thrown.
Proof.
  split; [| split].
  - destruct (getSelectedSiteId_reads_ui sample_prototype ui_store (VObj 50))
      as [_ Hread].
    destruct (Hread eq_refl eq_refl) as [Hfield _]. exact Hfield.
  - destruct (getSelectedSiteId_reads_ui sample_prototype ui_store (VObj 52))
      as [_ Hread].
    destruct (Hread eq_refl eq_refl) as [_ Habsent].
    exact (Habsent eq_refl eq_refl).
  - apply (getSelectedSiteId_reads_ui sample_prototype ui_store (VObj 54)).
    right. reflexivity.
Defined.

(** Canvas 1: the callback 9 gets the two bytes of the image, as a PNG. *)
Lemma canvasToBlob_polyfill_blob_witness :
  sample_canvasToBlob None 1%nat 9%nat VUndefined VUndefined
  = (Some PolyfillToBlob,
     CallbackCalled nat nat 9%nat
       (BlobInit [[104; 105]%N] (VStr "image/png"))).
Proof.
  exact (canvasToBlob_polyfill_blob nat nat sample_toDataURL sample_atob
           None 1%nat 9%nat VUndefined VUndefined
           "data:image/png;base64"%string "aGk="%string "hi"%string
           ltac:(discriminate) eq_refl eq_refl eq_refl eq_refl).
Defined.

(** Canvas 2: no payload, and [atob] refuses the string [undefined]. *)
Lemma canvasToBlob_no_payload_witness :
  (sample_canvasToBlob None 2%nat 9%nat (VStr "image/jpeg") VUndefined).2
  = Raised nat nat.
Proof.
  exact (canvasToBlob_no_payload nat nat sample_toDataURL sample_atob
           None 2%nat 9%nat (VStr "image/jpeg") VUndefined "data:"%string
           ltac:(discriminate) eq_refl eq_refl).
Defined.

(** ** The lookup order and the precedence of [url], on concrete inputs *)

(** The media store with a media whose URL is the empty string. *)
Definition blank_url_store : heap :=
  <[42%positive := ({[ "URL" := VStr "" ]} : obj)]> media_store.

(** With a lookup by slug that sends every key to the raw site at location
    1: the ID 8 is served by the raw site at location 3, which the lookup by
    ID finds; a key the lookup by ID does not know is served by location 1;
    and with the lookup by slug of the examples, the ID 999 gives [null]. *)
Lemma getSite_lookup_order_witness :
  serves_raw_site sample_prototype sample_state
    sample_siteAttributes sample_jetpackAttributes
    later_state 3 two_sites_world
    (getSite sample_prototype sample_state sample_getRawSite every_slug
       sample_siteAttributes sample_jetpackAttributes
       later_state (VNum 8) two_sites_world) ∧
  serves_raw_site sample_prototype sample_state
    sample_siteAttributes sample_jetpackAttributes
    later_state 1 two_sites_world
    (getSite sample_prototype sample_state sample_getRawSite every_slug
       sample_siteAttributes sample_jetpackAttributes
       later_state (VStr "unknown") two_sites_world) ∧
  sample_getSite later_state (VNum 999) two_sites_world
  = (Returned VNull, two_sites_world).
Proof.
  split; [| split].
  - destruct (getSite_lookup_order sample_prototype sample_state
                sample_getRawSite every_slug
                sample_siteAttributes sample_jetpackAttributes
                later_state (VNum 8) two_sites_world) as (Hid & _ & _).
    exact (Hid 3%positive eq_refl).
  - destruct (getSite_lookup_order sample_prototype sample_state
                sample_getRawSite every_slug
                sample_siteAttributes sample_jetpackAttributes
                later_state (VStr "unknown") two_sites_world)
      as (_ & Hslug & _).
    exact (Hslug 1%positive eq_refl eq_refl).
  - destruct (getSite_lookup_order sample_prototype sample_state
                sample_getRawSite sample_getSiteBySlug
                sample_siteAttributes sample_jetpackAttributes
                later_state (VNum 999) two_sites_world) as (_ & _ & Hnone).
    exact (Hnone eq_refl eq_refl).
Defined.

(** What the first of these calls returns: a new object, made from the raw
    site with ID 8. *)
Example getSite_serves_id_first :
  (getSite sample_prototype sample_state sample_getRawSite every_slug
     sample_siteAttributes sample_jetpackAttributes
     later_state (VNum 8) two_sites_world).1 = Returned (VObj 4) ∧
  objects
    (getSite sample_prototype sample_state sample_getRawSite every_slug
       sample_siteAttributes sample_jetpackAttributes
       later_state (VNum 8) two_sites_world).2 !! 4%positive
  = Some {[ "ID" := VNum 8; "slug" := VStr "other" ]}.
Proof. split; reflexivity. Qed.

(** C7, as stated, fails. The media at location 10 is not transient and has
    a URL, and its thumbnails hold nothing named [toString]; with the options
    [{ size: "toString", maxWidth: 450 }] the claim gives the width resize,
    but [url] returns the function every object inherits under that name.
    The media at location 24 is not transient and has a URL, and its
    [thumbnails] field is a string: [url] throws, whatever the options. *)
Lemma url_precedence_counterexample :
  truthy (get sample_prototype media_store (VObj 10) "transient") = false ∧
  get sample_prototype media_store (VObj 10) "URL"
  = VStr "https://example.com/img.JPG" ∧
  get sample_prototype media_store (VObj 10) "thumbnails" = VObj 11 ∧
  own_props media_store (VObj 11) !! "toString"%string = None ∧
  option_value sample_prototype media_store (VObj 23) "size" = VStr "toString" ∧
  option_value sample_prototype media_store (VObj 23) "maxWidth" = VNum 450 ∧
  sample_url media_store (VObj 10) (VObj 23) = Returned (VObj 902) ∧
  sample_url media_store (VObj 10) (VObj 23)
  ≠ sample_resize (VStr "https://example.com/img.JPG") {[ "w" := VNum 450 ]} ∧
  truthy (get sample_prototype media_store (VObj 24) "transient") = false ∧
  get sample_prototype media_store (VObj 24) "URL"
  = VStr "https://example.com/img.JPG" ∧
  get sample_prototype media_store (VObj 24) "thumbnails" = VStr "none" ∧
  sample_url media_store (VObj 24) (VObj 12) = Thrown.
Proof. repeat split; discriminate. Qed.

(** [url] on the media at location 10, which has two thumbnails:
    - with [size: "medium"] the thumbnail is returned although [maxWidth]
      and [resize] are set;
    - with an unknown size, [maxWidth] is used although [resize] is set;
    - with [resize] alone, the named resize;
    - with no options, the raw URL;
    and [undefined] for absent media, media without URL and media whose URL
    is the empty string. *)
Lemma url_precedence_witness :
  sample_url media_store (VObj 10) (VObj 12)
  = Returned (VStr "https://example.com/img-300x200.JPG") ∧
  sample_url media_store (VObj 10) (VObj 13)
  = Returned (VStr "https://example.com/img.JPG?w=450") ∧
  sample_url media_store (VObj 10) (VObj 14)
  = Returned (VStr "https://example.com/img.JPG?resize=100,100") ∧
  sample_url media_store (VObj 10) VUndefined
  = Returned (VStr "https://example.com/img.JPG") ∧
  sample_url media_store VNull (VObj 12) = Returned VUndefined ∧
  sample_url media_store (VObj 22) (VObj 12) = Returned VUndefined ∧
  sample_url blank_url_store (VObj 42) (VObj 12) = Returned VUndefined ∧
  sample_url_photon media_store (VObj 10) (VObj 12)
  = sample_url media_store (VObj 10) (VObj 12).
Proof.
  pose proof (url_precedence sample_prototype sample_resize sample_photon
                media_store (VObj 10)) as Hmedia.
  cbv zeta in Hmedia.
  split.
  { destruct (Hmedia (VObj 12)) as (_ & Hprec & _).
    destruct (Hprec eq_refl eq_refl eq_refl) as (Hnamed & _).
    exact (Hnamed 11%positive (VStr "https://example.com/img-300x200.JPG")
             eq_refl eq_refl). }
  split.
  { destruct (Hmedia (VObj 13)) as (_ & Hprec & _).
    destruct (Hprec eq_refl eq_refl eq_refl) as (_ & Hrest).
    apply Hrest. right. exists 11%positive. repeat split. }
  split.
  { destruct (Hmedia (VObj 14)) as (_ & Hprec & _).
    destruct (Hprec eq_refl eq_refl eq_refl) as (_ & Hrest).
    apply Hrest. right. exists 11%positive. repeat split. }
  split.
  { destruct (Hmedia VUndefined) as (_ & Hprec & _).
    destruct (Hprec eq_refl eq_refl eq_refl) as (_ & Hrest).
    apply Hrest. right. exists 11%positive. repeat split. }
  split.
  { pose proof (url_precedence sample_prototype sample_resize sample_photon
                  media_store VNull (VObj 12)) as Habsent.
    cbv zeta in Habsent. destruct Habsent as (Habsent & _).
    exact (Habsent (or_introl eq_refl)). }
  split.
  { pose proof (url_precedence sample_prototype sample_resize sample_photon
                  media_store (VObj 22) (VObj 12)) as Hnourl.
    cbv zeta in Hnourl. destruct Hnourl as (Hnourl & _).
    exact (Hnourl (or_intror (or_introl eq_refl))). }
  split.
  { pose proof (url_precedence sample_prototype sample_resize sample_photon
                  blank_url_store (VObj 42) (VObj 12)) as Hempty.
    cbv zeta in Hempty. destruct Hempty as (Hempty & _).
    exact (Hempty (or_intror (or_intror (conj eq_refl eq_refl)))). }
  destruct (Hmedia (VObj 12)) as (_ & _ & Hphoton).
  exact (Hphoton eq_refl).
Defined.
